(** * Rwanda Financial Inclusion dashboard: data preparation, filtering and
      aggregation views of [streamlit_app.py]

    The dashboard is a pandas program.  Its tables are modelled as lists of
    typed rows, its numeric results as exact rationals ([Q]) with [None]
    standing for pandas' NaN, Python exceptions as an error result, and the
    data frames that [main] creates and the views update in place as objects
    in an explicit store.  The pandas operations the program calls ([merge],
    [qcut], [cut], [groupby], [mean], [value_counts], [sort_index],
    [sort_values]) are modelled by what pandas documents them to compute;
    the sort behind [sort_values], which pandas does not fix, is a parameter. *)

From Stdlib Require Import ZArith QArith Qround List String Ascii Bool Lia.
From Stdlib Require Import Sorting.Sorted Sorting.Permutation.
From Stdlib Require OrderedTypeEx.
From stdpp Require Import base list.
Import ListNotations.

Local Open Scope string_scope.
Local Open Scope Z_scope.

(** ** Python results *)

(** The exceptions the program can raise: [ZeroDivisionError] from Python's
    [/] on two ints and [ValueError] from [pd.qcut] and [pd.cut]. *)
Inductive exn : Type :=
| ZeroDivisionError
| ValueError (msg : string).

Inductive result (A : Type) : Type :=
| Ok (a : A)
| Raise (e : exn).
Arguments Ok {A} a.
Arguments Raise {A} e.

Definition rbind {A B} (m : result A) (k : A -> result B) : result B :=
  match m with
  | Ok a => k a
  | Raise e => Raise e
  end.

(** A float64 cell: an exact rational, or NaN. *)
Definition float : Type := option Q.
Definition NaN : float := None.

(** ** The two source tables *)

(** demographics.csv *)
Record Demographics : Type := mkDemographics {
  d_respondent_id : Z;
  d_province : string;
  d_urban_rural : string;
  d_age : Z;
  d_education : string;
  d_monthly_income_rwf : Z
}.

(** financial_services.csv; the five service flags are 0/1 integer columns. *)
Record FinancialServices : Type := mkFinancialServices {
  f_respondent_id : Z;
  f_has_bank_account : Z;
  f_uses_mobile_money : Z;
  f_has_savings : Z;
  f_has_loan : Z;
  f_uses_insurance : Z;
  f_financial_literacy_score : Q
}.

(** One row of [demographics.merge(financial_services, on='respondent_id')]. *)
Record Merged : Type := mkMerged {
  respondent_id : Z;
  province : string;
  urban_rural : string;
  age : Z;
  education : string;
  monthly_income_rwf : Z;
  has_bank_account : Z;
  uses_mobile_money : Z;
  has_savings : Z;
  has_loan : Z;
  uses_insurance : Z;
  financial_literacy_score : Q
}.

Inductive Quintile : Type := Q1 | Q2 | Q3 | Q4 | Q5.
Inductive AgeGroup : Type := Age18_25 | Age26_35 | Age36_45 | Age46_55 | Age56plus.

(** One row of the prepared table: the merged columns and the two columns
    [prepare_analysis_data] derives.  A categorical cell may be NaN. *)
Record Row : Type := mkRow {
  base : Merged;
  any_formal_service : bool;
  income_quintile : option Quintile
}.

(** ** Merge *)

Definition join_row (d : Demographics) (f : FinancialServices) : Merged :=
  {| respondent_id := d_respondent_id d;
     province := d_province d;
     urban_rural := d_urban_rural d;
     age := d_age d;
     education := d_education d;
     monthly_income_rwf := d_monthly_income_rwf d;
     has_bank_account := f_has_bank_account f;
     uses_mobile_money := f_uses_mobile_money f;
     has_savings := f_has_savings f;
     has_loan := f_has_loan f;
     uses_insurance := f_uses_insurance f;
     financial_literacy_score := f_financial_literacy_score f |}.

(** [left.merge(right, on='respondent_id', how='inner')]: every pair of a left
    and a right row with the same key, in the order of the left rows. *)
Definition merge (left : list Demographics) (right : list FinancialServices)
  : list Merged :=
  flat_map (fun d =>
    List.map (join_row d)
      (List.filter (fun f => f_respondent_id f =? d_respondent_id d) right))
    left.

(** ** Quantiles and binning ([pd.qcut], [pd.cut]) *)

(** Sorting by insertion with respect to a total order [leb]; equal elements
    keep their order. *)
Fixpoint insert_by {A} (leb : A -> A -> bool) (x : A) (l : list A) : list A :=
  match l with
  | [] => [x]
  | y :: l' => if leb x y then x :: l else y :: insert_by leb x l'
  end.

Definition sort_by {A} (leb : A -> A -> bool) (l : list A) : list A :=
  fold_right (insert_by leb) [] l.

Definition sort_values_Z (l : list Z) : list Z := sort_by Z.leb l.

(** The [k]/[q] quantile of sorted data with numpy's default linear
    interpolation: the virtual index is [(n-1)*k/q]; the result lies between
    the two neighbouring order statistics. *)
Definition quantile_sorted (s : list Z) (k q : Z) : Q :=
  let n := Z.of_nat (List.length s) in
  let h := (n - 1) * k in
  let i := h / q in
  let lo := nth (Z.to_nat i) s 0 in
  let hi := nth (Z.to_nat (Z.min (i + 1) (n - 1))) s 0 in
  Qred (inject_Z lo + ((h mod q) # Z.to_pos q) * inject_Z (hi - lo)).

(** [Series.quantile(np.linspace(0, 1, q + 1))]; all NaN on an empty series. *)
Definition quantiles (x : list Z) (q : Z) : list float :=
  let s := sort_values_Z x in
  List.map (fun k => match x with
                     | [] => NaN
                     | _ => Some (quantile_sorted s (Z.of_nat k) q)
                     end)
           (seq 0 (S (Z.to_nat q))).

Definition float_eqb (a b : float) : bool :=
  match a, b with
  | Some x, Some y => Qeq_bool x y
  | None, None => true
  | _, _ => false
  end.

(** [algos.unique]: first occurrences, NaN counted once. *)
Fixpoint unique (l : list float) : list float :=
  match l with
  | [] => []
  | x :: l' => x :: List.filter (fun y => negb (float_eqb x y)) (unique l')
  end.

Definition float_ltb (a b : float) : bool :=
  match a, b with
  | Some x, Some y => negb (Qle_bool y x)
  | _, _ => false
  end.

(** [bins.searchsorted(v, side='left')]: the first position whose edge is not
    below [v]. *)
Fixpoint searchsorted_left (bins : list float) (v : Q) : nat :=
  match bins with
  | [] => 0%nat
  | b :: bins' => if float_ltb b (Some v) then S (searchsorted_left bins' v) else 0%nat
  end.

(** [_bins_to_cuts] with [right=True], [duplicates='raise'] and labels given:
    the cell of [v] is the label of the bin [(bins[i-1], bins[i]]] holding it,
    NaN when it falls outside all bins. *)
Definition bin_label {L} (bins : list float) (labels : list L)
    (include_lowest : bool) (v : Q) : option L :=
  let id := searchsorted_left bins v in
  let id := if include_lowest && float_eqb (Some v) (hd NaN bins)
            then 1%nat else id in
  if (id =? 0)%nat || (id =? List.length bins)%nat then None
  else nth_error labels (id - 1).

Definition _bins_to_cuts {L} (x : list Q) (bins : list float) (labels : list L)
    (include_lowest : bool) : result (list (option L)) :=
  if (List.length (unique bins) <? List.length bins)%nat
     && negb (List.length bins =? 2)%nat
  then Raise (ValueError "Bin edges must be unique")
  else if negb (List.length labels =? List.length bins - 1)%nat
  then Raise (ValueError "Bin labels must be one fewer than the number of bin edges")
  else Ok (List.map (bin_label bins labels include_lowest) x).

(** [pd.qcut(x, q=5, labels=[...])] *)
Definition qcut {L} (x : list Z) (q : Z) (labels : list L)
  : result (list (option L)) :=
  _bins_to_cuts (List.map inject_Z x) (quantiles x q) labels true.

Fixpoint increasing (bins : list Z) : bool :=
  match bins with
  | a :: ((b :: _) as bins') => (a <=? b) && increasing bins'
  | _ => true
  end.

(** [pd.cut(x, bins=[...], labels=[...])] with a list of edges. *)
Definition cut {L} (x : list Z) (bins : list Z) (labels : list L)
  : result (list (option L)) :=
  if increasing bins
  then _bins_to_cuts (List.map inject_Z x)
         (List.map (fun b => Some (inject_Z b)) bins) labels false
  else Raise (ValueError "bins must increase monotonically.").

(** ** [prepare_analysis_data] *)

Definition formal_flag (m : Merged) : bool :=
  (has_bank_account m =? 1) || (uses_mobile_money m =? 1) || (has_savings m =? 1).

Definition quintile_labels : list Quintile := [Q1; Q2; Q3; Q4; Q5].

Definition prepare_analysis_data (demographics : list Demographics)
    (financial_services : list FinancialServices) : result (list Row) :=
  let df := merge demographics financial_services in
  let any := List.map formal_flag df in
  rbind (qcut (List.map monthly_income_rwf df) 5 quintile_labels) (fun quint =>
  Ok (List.map (fun '(m, a, q) => mkRow m a q) (combine (combine df any) quint))).

(** ** Data frames and column helpers *)

(** A data frame object at run time: the prepared rows, and the two columns
    that views attach to the frame they are given ([None]: no such column). *)
Record DataFrame : Type := mkDataFrame {
  rows : list Row;
  age_group : option (list (option AgeGroup));
  service_count : option (list Z)
}.

Definition frame_of (rs : list Row) : DataFrame :=
  {| rows := rs; age_group := None; service_count := None |}.

Definition len (df : DataFrame) : Z := Z.of_nat (List.length (rows df)).

(** [seq[mask]]: the entries whose mask bit is set. *)
Definition select {A} (mask : list bool) (l : list A) : list A :=
  List.map fst (List.filter snd (combine l mask)).

(** [df[mask]]: a new frame with the selected rows of every column. *)
Definition getitem (df : DataFrame) (mask : Row -> bool) : DataFrame :=
  let m := List.map mask (rows df) in
  {| rows := select m (rows df);
     age_group := option_map (select m) (age_group df);
     service_count := option_map (select m) (service_count df) |}.

Definition flagQ (z : Z) : Q := inject_Z z.
Definition boolQ (b : bool) : Q := if b then 1%Q else 0%Q.

Definition Qsum (l : list Q) : Q := fold_right Qplus 0%Q l.

(** [Series.mean()]: NaN on an empty series. *)
Definition mean (col : list Q) : float :=
  match col with
  | [] => NaN
  | _ => Some (Qred (Qsum col / inject_Z (Z.of_nat (List.length col))))
  end.

Definition float_sub (a b : float) : float :=
  match a, b with
  | Some x, Some y => Some (Qred (x - y))
  | _, _ => NaN
  end.

(** Python's [a / b] on ints. *)
Definition py_truediv (a b : Z) : result Q :=
  if b =? 0 then Raise ZeroDivisionError else Ok (Qred (inject_Z a / inject_Z b)).

Definition mean_of (f : Row -> Q) (rs : list Row) : float := mean (List.map f rs).

Definition bank (r : Row) : Q := flagQ (has_bank_account (base r)).
Definition mobile (r : Row) : Q := flagQ (uses_mobile_money (base r)).
Definition savings (r : Row) : Q := flagQ (has_savings (base r)).
Definition loan (r : Row) : Q := flagQ (has_loan (base r)).
Definition insurance (r : Row) : Q := flagQ (uses_insurance (base r)).
Definition formal (r : Row) : Q := boolQ (any_formal_service r).
Definition literacy (r : Row) : Q := financial_literacy_score (base r).
Definition income (r : Row) : Q := inject_Z (monthly_income_rwf (base r)).

(** ** Group-by *)

Fixpoint insert_key (k : string) (l : list string) : list string :=
  match l with
  | [] => [k]
  | k' :: l' =>
      match String.compare k k' with
      | Lt => k :: l
      | Eq => l
      | Gt => k' :: insert_key k l'
      end
  end.

(** The group keys of a string column: its distinct values in sorted order. *)
Definition group_keys (col : list string) : list string :=
  fold_right insert_key [] col.

(** [df.groupby(key)] on a string column: one group per observed key, groups
    in key order, rows of a group in frame order. *)
Definition groupby {A} (key : A -> string) (rs : list A) : list (string * list A) :=
  List.map (fun k => (k, List.filter (fun r => String.eqb (key r) k) rs))
           (group_keys (List.map key rs)).

Definition same_category {C} (eqb : C -> C -> bool) (c : C) (o : option C) : bool :=
  match o with
  | Some c' => eqb c c'
  | None => false
  end.

(** [df.groupby(key)] on a categorical column: one group per category, in
    category order, observed or not; NaN cells belong to no group. *)
Definition groupby_categorical {A C} (eqb : C -> C -> bool) (categories : list C)
    (cells : list (A * option C)) : list (C * list A) :=
  List.map (fun c => (c, List.map fst
                        (List.filter (fun x => same_category eqb c (snd x)) cells)))
           categories.

Definition Quintile_eqb (a b : Quintile) : bool :=
  match a, b with
  | Q1, Q1 | Q2, Q2 | Q3, Q3 | Q4, Q4 | Q5, Q5 => true
  | _, _ => false
  end.

Definition AgeGroup_eqb (a b : AgeGroup) : bool :=
  match a, b with
  | Age18_25, Age18_25 | Age26_35, Age26_35 | Age36_45, Age36_45
  | Age46_55, Age46_55 | Age56plus, Age56plus => true
  | _, _ => false
  end.

(** ** Views as programs over the frame they are given *)

(** A view runs on one frame object [df], may update it in place, and returns
    a value or raises; the frame's final state is returned in both cases. *)
Definition View (A : Type) : Type := DataFrame -> result A * DataFrame.

Definition ret {A} (a : A) : View A := fun df => (Ok a, df).

Definition bind {A B} (m : View A) (k : A -> View B) : View B :=
  fun df => match m df with
            | (Ok a, df') => k a df'
            | (Raise e, df') => (Raise e, df')
            end.

Definition lift {A} (r : result A) : View A := fun df => (r, df).

(** Read the current state of [df]. *)
Definition get : View DataFrame := fun df => (Ok df, df).

(** [df['age_group'] = col] *)
Definition setitem_age_group (col : list (option AgeGroup)) : View unit :=
  fun df => (Ok tt, {| rows := rows df;
                       age_group := Some col;
                       service_count := service_count df |}).

(** [df['service_count'] = col] *)
Definition setitem_service_count (col : list Z) : View unit :=
  fun df => (Ok tt, {| rows := rows df;
                       age_group := age_group df;
                       service_count := Some col |}).

Notation "x <- m ;; k" := (bind m (fun x => k))
  (at level 100, m at next level, right associativity).

(** Each view below returns the numbers and tables it computes.  What it
    does with them next, formatting them into strings and handing them to
    Streamlit and Plotly, is presentation and is not modelled. *)

(** ** Executive overview *)

Record ExecutiveOverview : Type := mkExecutiveOverview {
  eo_formal_inclusion : float;
  eo_mobile_money : float;
  eo_vs_banking : float;
  eo_avg_literacy : float;
  eo_excluded_count : Z;
  eo_excluded_share : Q;
  eo_rates : list (string * float);
  eo_comparison_data : list (string * (float * float * float))
}.

Definition show_executive_overview : View ExecutiveOverview :=
  df <- get;;
  let formal_inclusion := mean_of formal (rows df) in
  let mobile_money := mean_of mobile (rows df) in
  let vs_banking := float_sub mobile_money (mean_of bank (rows df)) in
  let avg_literacy := mean_of literacy (rows df) in
  let excluded_count := len (getitem df (fun r => eqb (any_formal_service r) false)) in
  share <- lift (py_truediv excluded_count (len df));;
  let rates := [("Bank Account", mean_of bank (rows df));
                ("Mobile Money", mean_of mobile (rows df));
                ("Savings", mean_of savings (rows df));
                ("Loans", mean_of loan (rows df));
                ("Insurance", mean_of insurance (rows df))] in
  let comparison_data :=
    List.map (fun '(k, g) => (k, (mean_of bank g, mean_of mobile g, mean_of formal g)))
             (groupby (fun r => urban_rural (base r)) (rows df)) in
  ret {| eo_formal_inclusion := formal_inclusion;
         eo_mobile_money := mobile_money;
         eo_vs_banking := vs_banking;
         eo_avg_literacy := avg_literacy;
         eo_excluded_count := excluded_count;
         eo_excluded_share := share;
         eo_rates := rates;
         eo_comparison_data := comparison_data |}.

(** ** Demographic analysis *)

Record DemographicAnalysis : Type := mkDemographicAnalysis {
  edu_analysis : list (string * (float * float * float));
  age_analysis : list (AgeGroup * (float * float))
}.

Definition age_bins : list Z := [0; 25; 35; 45; 55; 100].
Definition age_labels : list AgeGroup :=
  [Age18_25; Age26_35; Age36_45; Age46_55; Age56plus].

Definition show_demographic_analysis : View DemographicAnalysis :=
  df <- get;;
  let edu :=
    List.map (fun '(k, g) => (k, (mean_of formal g, mean_of literacy g, mean_of income g)))
             (groupby (fun r => education (base r)) (rows df)) in
  col <- lift (cut (List.map (fun r => age (base r)) (rows df)) age_bins age_labels);;
  _ <- setitem_age_group col;;
  df <- get;;
  let cells := combine (rows df) (match age_group df with Some c => c | None => [] end) in
  let ages :=
    List.map (fun '(c, g) => (c, (mean_of mobile g, mean_of bank g)))
             (groupby_categorical AgeGroup_eqb age_labels cells) in
  ret {| edu_analysis := edu; age_analysis := ages |}.

(** ** Provincial analysis *)

Record ProvinceStat : Type := mkProvinceStat {
  ps_province : string;
  ps_any_formal_service : float;
  ps_uses_mobile_money : float;
  ps_has_bank_account : float;
  ps_monthly_income_rwf : float;
  ps_financial_literacy_score : float
}.

Definition province_groups (rs : list Row) : list ProvinceStat :=
  List.map (fun '(k, g) =>
              {| ps_province := k;
                 ps_any_formal_service := mean_of formal g;
                 ps_uses_mobile_money := mean_of mobile g;
                 ps_has_bank_account := mean_of bank g;
                 ps_monthly_income_rwf := mean_of income g;
                 ps_financial_literacy_score := mean_of literacy g |})
           (groupby (fun r => province (base r)) rs).

(** [l.take(idx)]: the entries of [l] at the positions [idx], in that order. *)
Definition take_idx {A} (idx : list nat) (l : list A) : list A :=
  flat_map (fun i => match nth_error l i with Some x => [x] | None => [] end) idx.

Definition is_nan (x : float) : bool :=
  match x with Some _ => false | None => true end.

Definition non_nan_values (items : list float) : list Q :=
  flat_map (fun x => match x with Some q => [q] | None => [] end) items.

Section SortValues.

(** numpy's [argsort(kind='quicksort')] on a float array without NaN: the
    sort [sort_values] uses when no [kind] is given.  It is a parameter of
    [nargsort] and of the view; [argsort_quicksort] below is numpy's own
    quicksort, and [is_argsort] is what every sort gives. *)
Variable argsort : list Q -> list nat.

(** pandas' [nargsort] with [ascending=True], [na_position='last']. *)
Definition nargsort (items : list float) : list nat :=
  let idx := seq 0 (List.length items) in
  let non_nan_idx := select (List.map (fun x => negb (is_nan x)) items) idx in
  let nan_idx := select (List.map is_nan items) idx in
  (take_idx (argsort (non_nan_values items)) non_nan_idx ++ nan_idx)%list.

(** [stats.sort_values('any_formal_service', ascending=True)] *)
Definition sort_values (stats : list ProvinceStat) : list ProvinceStat :=
  take_idx (nargsort (List.map ps_any_formal_service stats)) stats.

Definition show_provincial_analysis : View (list ProvinceStat) :=
  df <- get;;
  let province_stats := province_groups (rows df) in
  let province_stats := sort_values province_stats in
  ret province_stats.

End SortValues.

(** ** numpy's quicksort

    [sort_values] is called without [kind], so [nargsort] sorts the rates with
    [items.argsort(kind='quicksort')].  What follows is numpy's portable
    implementation for float64 keys, [aquicksort_<npy::double_tag>] of
    [numpy/_core/src/npysort/quicksort.cpp] with [aheapsort_] of
    [heapsort.cpp], statement by statement: an introsort on the array
    [tosort] of positions, comparing the keys [v] they point to.  (On CPUs
    with AVX-512 or AVX2, recent numpy builds dispatch the same call to a
    vectorised sort instead; that code is not modelled.)  The keys are the
    non-NaN rates, so [Tag::less] is the plain [<]. *)

(** [Tag::less(x, y)] without NaN. *)
Definition less (x y : Q) : bool := negb (Qle_bool y x).

(** The position that a pointer [p] into [tosort] points to, and [v[i]]. *)
Definition item (a : list nat) (p : nat) : nat := nth p a 0%nat.
Definition value (v : list Q) (i : nat) : Q := nth i v 0%Q.

(** [INTP_SWAP] on the cells at [p] and [q]. *)
Definition INTP_SWAP (a : list nat) (p q : nat) : list nat :=
  <[q := item a p]> (<[p := item a q]> a).

(** The inner loop of the insertion sort:
    [while (pj > pl && less(vp, v[*pk])) { *pj-- = *pk--; }] with [pk = pj - 1]. *)
Fixpoint shift (v : list Q) (vp : Q) (pl : nat) (a : list nat) (pj : nat) : list nat * nat :=
  match pj with
  | O => (a, pj)
  | S pk => if (pl <? pj)%nat && less vp (value v (item a pk))
            then shift v vp pl (<[pj := item a pk]> a) pk
            else (a, pj)
  end.

(** [for (pi = pl + 1; pi <= pr; ++pi) { vi = *pi; vp = v[vi]; ...; *pj = vi; }] *)
Definition insertion_sort (v : list Q) (a : list nat) (pl pr : nat) : list nat :=
  fold_left (fun a pi =>
               let vi := item a pi in
               let '(a', pj) := shift v (value v vi) pl a pi in
               <[pj := vi]> a')
            (seq (S pl) (pr - pl)) a.

(** [do { ++pi; } while (less(v[*pi], vp));]  The scan stops inside the
    array; [None] stands for a scan that would leave it. *)
Fixpoint scan_up (fuel : nat) (v : list Q) (vp : Q) (a : list nat) (pi : nat) : option nat :=
  match fuel with
  | O => None
  | S fuel' => let pi := S pi in
               if less (value v (item a pi)) vp then scan_up fuel' v vp a pi else Some pi
  end.

(** [do { --pj; } while (less(vp, v[*pj]));] *)
Fixpoint scan_down (v : list Q) (vp : Q) (a : list nat) (pj : nat) : option nat :=
  match pj with
  | O => None
  | S pj => if less vp (value v (item a pj)) then scan_down v vp a pj else Some pj
  end.

(** [for (;;) { scan up; scan down; if (pi >= pj) break; INTP_SWAP; }] *)
Fixpoint exchange (fuel : nat) (v : list Q) (vp : Q) (a : list nat) (pi pj : nat)
  : option (list nat * nat) :=
  match fuel with
  | O => None
  | S fuel' =>
      match scan_up (List.length a) v vp a pi with
      | None => None
      | Some pi =>
          match scan_down v vp a pj with
          | None => None
          | Some pj => if (pj <=? pi)%nat then Some (a, pi)
                       else exchange fuel' v vp (INTP_SWAP a pi pj) pi pj
          end
      end
  end.

(** One round of the quicksort on [pl..pr]: median of three, the pivot parked
    at [pr - 1], the exchanges, and the pivot put in its place [pi]. *)
Definition quick_partition (v : list Q) (a : list nat) (pl pr : nat)
  : option (list nat * nat) :=
  let pm := (pl + Nat.div2 (pr - pl))%nat in
  let a := if less (value v (item a pm)) (value v (item a pl)) then INTP_SWAP a pm pl else a in
  let a := if less (value v (item a pr)) (value v (item a pm)) then INTP_SWAP a pr pm else a in
  let a := if less (value v (item a pm)) (value v (item a pl)) then INTP_SWAP a pm pl else a in
  let vp := value v (item a pm) in
  let pi := pl in
  let pj := (pr - 1)%nat in
  let a := INTP_SWAP a pm pj in
  match exchange (List.length a) v vp a pi pj with
  | None => None
  | Some (a, pi) => Some (INTP_SWAP a pi (pr - 1), pi)
  end.

(** The sift loop of the heap sort, on the heap [a[pl] .. a[pl + n - 1]]
    numbered from 1:
    [for (...; j <= n;) { if (j < n && less(v[a[j]], v[a[j+1]])) j += 1;
       if (less(v[tmp], v[a[j]])) { a[i] = a[j]; i = j; j += j; } else break; }] *)
Fixpoint sift (fuel : nat) (v : list Q) (pl : nat) (tmp : nat) (a : list nat) (i j n : nat)
  : list nat * nat :=
  match fuel with
  | O => (a, i)
  | S fuel' =>
      if (j <=? n)%nat then
        let j := if (j <? n)%nat && less (value v (item a (pl + j - 1))) (value v (item a (pl + j)))
                 then S j else j in
        if less (value v tmp) (value v (item a (pl + j - 1)))
        then sift fuel' v pl tmp (<[(pl + i - 1)%nat := item a (pl + j - 1)]> a) j (j + j) n
        else (a, i)
      else (a, i)
  end.

(** [aheapsort_(v, pl, n)]: build the heap, then move its top to the end
    [n - 1] times. *)
Definition aheapsort (v : list Q) (a : list nat) (pl n : nat) : list nat :=
  let build := fold_left (fun a l =>
                 let tmp := item a (pl + l - 1) in
                 let '(a, i) := sift n v pl tmp a l (l + l) n in
                 <[(pl + i - 1)%nat := tmp]> a)
               (rev (seq 1 (Nat.div2 n))) a in
  fold_left (fun a m =>
               let tmp := item a (pl + m - 1) in
               let a := <[(pl + m - 1)%nat := item a pl]> a in
               let '(a, i) := sift n v pl tmp a 1 2 (m - 1) in
               <[(pl + i - 1)%nat := tmp]> a)
            (rev (seq 2 (n - 1))) build.

Definition SMALL_QUICKSORT : nat := 16.

(** The outer loop of [aquicksort_] with its stack of pending partitions.
    [popped] tells that [pl..pr] has just been taken from the stack (or is
    the whole array): only then is the depth [cdepth] tested and the heap
    sort used.  After a round the smaller part is continued with and the
    larger one is pushed, both with the depth less one. *)
Fixpoint aquicksort_loop (fuel : nat) (v : list Q) (a : list nat) (pl pr : nat) (cdepth : Z)
    (popped : bool) : option (list nat) :=
  match fuel with
  | O => None
  | S fuel' =>
      if popped && (cdepth <? 0) then Some (aheapsort v a pl (pr - pl + 1))
      else if (SMALL_QUICKSORT <? pr - pl)%nat then
        match quick_partition v a pl pr with
        | None => None
        | Some (a, pi) =>
            if (pi - pl <? pr - pi)%nat then
              match aquicksort_loop fuel' v a pl (pi - 1) (cdepth - 1) false with
              | None => None
              | Some a => aquicksort_loop fuel' v a (pi + 1) pr (cdepth - 1) true
              end
            else
              match aquicksort_loop fuel' v a (pi + 1) pr (cdepth - 1) false with
              | None => None
              | Some a => aquicksort_loop fuel' v a pl (pi - 1) (cdepth - 1) true
              end
        end
      else Some (insertion_sort v a pl pr)
  end.

(** [npy_get_msb(num)]: the position of the highest set bit. *)
Definition npy_get_msb (num : nat) : Z := Z.log2 (Z.of_nat num).

(** [aquicksort_(v, tosort, num)] *)
Definition aquicksort (v : list Q) (tosort : list nat) : option (list nat) :=
  let num := List.length tosort in
  aquicksort_loop (S num) v tosort 0 (num - 1) (npy_get_msb num * 2) true.

(** [keys.argsort(kind='quicksort')]: [tosort] starts as [0, 1, ..., n-1]. *)
Definition argsort_quicksort (keys : list Q) : list nat :=
  default [] (aquicksort keys (seq 0 (List.length keys))).

(** ** Service usage *)

Record ServiceUsage : Type := mkServiceUsage {
  service_dist : list (Z * Z);
  income_service : list (Quintile * (float * float * float * float))
}.

Definition count_services (r : Row) : Z :=
  has_bank_account (base r) + uses_mobile_money (base r) +
  has_savings (base r) + has_loan (base r) + uses_insurance (base r).

(** The distinct values of a column in order of first occurrence. *)
Fixpoint distinct (l : list Z) : list Z :=
  match l with
  | [] => []
  | x :: l' => x :: List.filter (fun y => negb (y =? x)) (distinct l')
  end.

Definition count_of (v : Z) (l : list Z) : Z :=
  Z.of_nat (List.length (List.filter (fun y => y =? v) l)).

(** [Series.value_counts()]: each observed value with its number of
    occurrences, most frequent first. *)
Definition value_counts (col : list Z) : list (Z * Z) :=
  sort_by (fun a b => snd b <=? snd a)
          (List.map (fun v => (v, count_of v col)) (distinct col)).

(** [Series.sort_index()] *)
Definition sort_index (s : list (Z * Z)) : list (Z * Z) :=
  sort_by (fun a b => fst a <=? fst b) s.

Definition show_service_usage : View ServiceUsage :=
  df <- get;;
  _ <- setitem_service_count (List.map count_services (rows df));;
  df <- get;;
  let counts := match service_count df with Some c => c | None => [] end in
  let dist := sort_index (value_counts counts) in
  let cells := combine (combine (rows df) counts) (List.map income_quintile (rows df)) in
  let by_quintile :=
    List.map (fun '(c, g) =>
                (c, (mean (List.map (fun x => bank (fst x)) g),
                     mean (List.map (fun x => mobile (fst x)) g),
                     mean (List.map (fun x => savings (fst x)) g),
                     mean (List.map (fun x => inject_Z (snd x)) g))))
             (groupby_categorical Quintile_eqb quintile_labels cells) in
  ret {| service_dist := dist; income_service := by_quintile |}.

(** ** Market segments *)

Record SegmentRow : Type := mkSegmentRow {
  Segment : string;
  Size : Z;
  Percentage : Q;
  Avg_Income : float;
  Urban_pct : float;
  Avg_Literacy : float
}.

Record MarketSegments : Type := mkMarketSegments {
  segments : list (string * Z);
  segment_data : list SegmentRow
}.

Definition is_digital_champion (r : Row) : bool :=
  (uses_mobile_money (base r) =? 1) && (has_bank_account (base r) =? 1).
Definition is_mobile_only (r : Row) : bool :=
  (uses_mobile_money (base r) =? 1) && (has_bank_account (base r) =? 0).
Definition is_bank_only (r : Row) : bool :=
  (has_bank_account (base r) =? 1) && (uses_mobile_money (base r) =? 0).
Definition is_excluded (r : Row) : bool :=
  (has_bank_account (base r) =? 0) && (uses_mobile_money (base r) =? 0).

(** One pass of the loop that fills [segment_data]. *)
Definition segment_row (df : DataFrame) (acc : list SegmentRow)
    (seg : string * DataFrame) : result (list SegmentRow) :=
  let '(segment_name, segment_df) := seg in
  if len segment_df >? 0 then
    rbind (py_truediv (len segment_df) (len df)) (fun pct =>
    Ok (acc ++ [{| Segment := segment_name;
                   Size := len segment_df;
                   Percentage := pct;
                   Avg_Income := mean_of income (rows segment_df);
                   Urban_pct := mean_of (fun r => boolQ (String.eqb (urban_rural (base r)) "Urban"))
                                        (rows segment_df);
                   Avg_Literacy := mean_of literacy (rows segment_df) |}])%list)
  else Ok acc.

Fixpoint for_each {A S} (body : S -> A -> result S) (l : list A) (acc : S) : result S :=
  match l with
  | [] => Ok acc
  | x :: l' => rbind (body acc x) (for_each body l')
  end.

Definition show_market_segments : View MarketSegments :=
  df <- get;;
  let digital_champions := getitem df is_digital_champion in
  let mobile_only := getitem df is_mobile_only in
  let bank_only := getitem df is_bank_only in
  let excluded := getitem df is_excluded in
  let segs := [("Digital Champions", len digital_champions);
               ("Mobile-Only Users", len mobile_only);
               ("Traditional Banking", len bank_only);
               ("Financially Excluded", len excluded)] in
  data <- lift (for_each (segment_row df)
                  [("Digital Champions", digital_champions);
                   ("Mobile-Only Users", mobile_only);
                   ("Traditional Banking", bank_only);
                   ("Financially Excluded", excluded)] []);;
  ret {| segments := segs; segment_data := data |}.

(** ** Policy insights *)

Record Recommendation : Type := mkRecommendation {
  title : string;
  priority : string;
  description : string;
  target : Z;
  impact : string
}.

Record PolicyInsights : Type := mkPolicyInsights {
  urban_rural_gap : float;
  excluded_rural : Z;
  mobile_advantage : float;
  recommendations : list Recommendation
}.

Definition is_urban (r : Row) : bool := String.eqb (urban_rural (base r)) "Urban".
Definition is_rural (r : Row) : bool := String.eqb (urban_rural (base r)) "Rural".
Definition is_rural_excluded (r : Row) : bool :=
  is_rural r && eqb (any_formal_service r) false.

Definition show_policy_insights : View PolicyInsights :=
  df <- get;;
  let urban_inclusion := mean_of formal (rows (getitem df is_urban)) in
  let rural_inclusion := mean_of formal (rows (getitem df is_rural)) in
  let gap := float_sub urban_inclusion rural_inclusion in
  let rural_excl := len (getitem df is_rural_excluded) in
  let advantage := float_sub (mean_of mobile (rows df)) (mean_of bank (rows df)) in
  let recs :=
    [ {| title := "Rural Mobile Money Agent Expansion"; priority := "HIGH";
         description := "Expand mobile money agent networks in rural areas to bridge the urban-rural inclusion gap.";
         target := len (getitem df is_rural_excluded);
         impact := "Could increase national inclusion by 8-12%" |};
      {| title := "Financial Literacy Programs"; priority := "HIGH";
         description := "Implement targeted financial education for low-education demographics.";
         target := len (getitem df (fun r => negb (Qle_bool 5 (literacy r))));
         impact := "Could improve literacy scores by 2-3 points" |};
      {| title := "Digital-First Service Strategy"; priority := "MEDIUM";
         description := "Prioritize mobile-based financial services over traditional banking infrastructure.";
         target := len (getitem df (fun r => uses_mobile_money (base r) =? 0));
         impact := "More cost-effective reach than traditional banking" |} ] in
  ret {| urban_rural_gap := gap;
         excluded_rural := rural_excl;
         mobile_advantage := advantage;
         recommendations := recs |}.

(** ** The session: frame objects, filters and dispatch *)

(** Frame objects live in a store and are named by their position in it.
    Indexing a frame with a mask creates a new object; a view works on the
    object it is handed. *)
Definition loc : Type := nat.
Abbreviation Store := (list DataFrame).

Definition deref (st : Store) (l : loc) : DataFrame :=
  default (frame_of []) (st !! l).

(** [new = old[mask]] *)
Definition boolean_index (l : loc) (mask : Row -> bool) (st : Store) : loc * Store :=
  (List.length st, (st ++ [getitem (deref st l) mask])%list).

(** Run a view on the object at [l]. *)
Definition run {A} (v : View A) (l : loc) (st : Store) : result A * Store :=
  let '(r, df') := v (deref st l) in (r, <[l := df']> st).

(** The options of the "Urban/Rural Filter" select box. *)
Inductive UrbanRural : Type := All | Urban | Rural.

Definition option_label (u : UrbanRural) : string :=
  match u with
  | All => "All"
  | Urban => "Urban"
  | Rural => "Rural"
  end.

(** [Series.isin(values)] on one cell. *)
Definition isin (values : list string) (v : string) : bool :=
  existsb (String.eqb v) values.

(** The "Apply filters" step of [main]. *)
Definition apply_filters (df : loc) (selected_provinces : list string)
    (urban_rural_filter : UrbanRural) (st : Store) : loc * Store :=
  let '(filtered_df, st) :=
    boolean_index df (fun r => isin selected_provinces (province (base r))) st in
  if negb (String.eqb (option_label urban_rural_filter) "All") then
    boolean_index filtered_df
      (fun r => String.eqb (urban_rural (base r)) (option_label urban_rural_filter)) st
  else (filtered_df, st).

(** The options of the "Select Analysis View" select box. *)
Inductive AnalysisType : Type :=
| Executive_Overview
| Demographic_Analysis
| Provincial_Analysis
| Service_Usage
| Market_Segments
| Policy_Insights.

Inductive Page : Type :=
| ExecutivePage (p : ExecutiveOverview)
| DemographicPage (p : DemographicAnalysis)
| ProvincialPage (p : list ProvinceStat)
| ServicePage (p : ServiceUsage)
| SegmentsPage (p : MarketSegments)
| PolicyPage (p : PolicyInsights).

Definition fmap_view {A B} (f : A -> B) (v : View A) : View B :=
  x <- v;; ret (f x).

(** The view that [main] calls for an analysis type. *)
Definition view_of (argsort : list Q -> list nat) (analysis_type : AnalysisType)
  : View Page :=
  match analysis_type with
  | Executive_Overview => fmap_view ExecutivePage show_executive_overview
  | Demographic_Analysis => fmap_view DemographicPage show_demographic_analysis
  | Provincial_Analysis => fmap_view ProvincialPage (show_provincial_analysis argsort)
  | Service_Usage => fmap_view ServicePage show_service_usage
  | Market_Segments => fmap_view SegmentsPage show_market_segments
  | Policy_Insights => fmap_view PolicyPage show_policy_insights
  end.

(** [main], from the prepared table [df] and the side bar's selections on. *)
Definition main (argsort : list Q -> list nat) (df : loc)
    (analysis_type : AnalysisType) (selected_provinces : list string)
    (urban_rural_filter : UrbanRural) (st : Store) : result Page * Store :=
  let '(filtered_df, st) :=
    apply_filters df selected_provinces urban_rural_filter st in
  run (view_of argsort analysis_type) filtered_df st.

(** * Sample data and the notions the properties are stated with *)

Definition sample_demographics : list Demographics :=
  [ mkDemographics 1 "Kigali" "Urban" 30 "University" 60000;
    mkDemographics 2 "Kigali" "Urban" 41 "Secondary" 30000;
    mkDemographics 3 "Northern" "Rural" 22 "Primary" 10000;
    mkDemographics 4 "Northern" "Rural" 58 "Primary" 30000;
    mkDemographics 5 "Southern" "Rural" 35 "Secondary" 30000;
    mkDemographics 6 "Southern" "Urban" 47 "University" 70000;
    mkDemographics 7 "Eastern" "Rural" 19 "None" 20000;
    mkDemographics 8 "Eastern" "Rural" 26 "Primary" 30000;
    mkDemographics 9 "Western" "Rural" 63 "Primary" 40000;
    mkDemographics 10 "Western" "Urban" 52 "Secondary" 50000 ].

Definition sample_financial_services : list FinancialServices :=
  [ mkFinancialServices 1 1 1 1 0 1 (8 # 1);
    mkFinancialServices 2 1 0 0 0 0 (6 # 1);
    mkFinancialServices 3 0 0 0 0 0 (3 # 1);
    mkFinancialServices 4 0 1 0 0 0 (4 # 1);
    mkFinancialServices 5 0 1 1 0 0 (5 # 1);
    mkFinancialServices 6 1 1 1 1 1 (9 # 1);
    mkFinancialServices 7 0 0 0 0 0 (2 # 1);
    mkFinancialServices 8 0 0 1 0 0 (5 # 1);
    mkFinancialServices 9 0 1 0 0 0 (4 # 1);
    mkFinancialServices 10 1 1 0 1 0 (7 # 1) ].

(** The quintile labels [pd.qcut] gives the sample incomes. *)
Definition sample_quintiles : list Quintile :=
  [Q5; Q2; Q1; Q2; Q2; Q5; Q1; Q2; Q4; Q4].

Definition sample_table : list Row :=
  List.map (fun '(m, q) => mkRow m (formal_flag m) (Some q))
    (combine (merge sample_demographics sample_financial_services) sample_quintiles).

(** The frame object that [main] hands to the selected view. *)
Definition filtered_view (df : loc) (selected_provinces : list string)
    (urban_rural_filter : UrbanRural) (st : Store) : DataFrame :=
  let '(filtered_df, st') := apply_filters df selected_provinces urban_rural_filter st in
  deref st' filtered_df.

(** The filter as the specification words it: the province is one of the
    selected ones and, unless the selection is "All", the urban/rural category
    is exactly the selected one. *)
Definition keeps (provinces : list string) (urbanRural : UrbanRural) (r : Row) : Prop :=
  In (province (base r)) provinces /\
  match urbanRural with
  | All => True
  | Urban => urban_rural (base r) = "Urban"
  | Rural => urban_rural (base r) = "Rural"
  end.

Definition keepsb (provinces : list string) (urbanRural : UrbanRural) (r : Row) : bool :=
  existsb (String.eqb (province (base r))) provinces &&
  match urbanRural with
  | All => true
  | Urban => String.eqb (urban_rural (base r)) "Urban"
  | Rural => String.eqb (urban_rural (base r)) "Rural"
  end.

(** The cell [pd.cut] computes for an age. *)
Definition age_cell (a : Z) : option AgeGroup :=
  bin_label (List.map (fun b => Some (inject_Z b)) age_bins) age_labels false
            (inject_Z a).

Definition no_data_demographic : DemographicAnalysis :=
  {| edu_analysis := [];
     age_analysis := [(Age18_25, (NaN, NaN)); (Age26_35, (NaN, NaN));
                      (Age36_45, (NaN, NaN)); (Age46_55, (NaN, NaN));
                      (Age56plus, (NaN, NaN))] |}.

Definition no_data_service : ServiceUsage :=
  {| service_dist := [];
     income_service := [(Q1, (NaN, NaN, NaN, NaN)); (Q2, (NaN, NaN, NaN, NaN));
                        (Q3, (NaN, NaN, NaN, NaN)); (Q4, (NaN, NaN, NaN, NaN));
                        (Q5, (NaN, NaN, NaN, NaN))] |}.

Definition no_data_segments : MarketSegments :=
  {| segments := [("Digital Champions", 0); ("Mobile-Only Users", 0);
                  ("Traditional Banking", 0); ("Financially Excluded", 0)];
     segment_data := [] |}.

Definition no_data_policy : PolicyInsights :=
  {| urban_rural_gap := NaN;
     excluded_rural := 0;
     mobile_advantage := NaN;
     recommendations :=
       [ {| title := "Rural Mobile Money Agent Expansion"; priority := "HIGH";
            description := "Expand mobile money agent networks in rural areas to bridge the urban-rural inclusion gap.";
            target := 0;
            impact := "Could increase national inclusion by 8-12%" |};
         {| title := "Financial Literacy Programs"; priority := "HIGH";
            description := "Implement targeted financial education for low-education demographics.";
            target := 0;
            impact := "Could improve literacy scores by 2-3 points" |};
         {| title := "Digital-First Service Strategy"; priority := "MEDIUM";
            description := "Prioritize mobile-based financial services over traditional banking infrastructure.";
            target := 0;
            impact := "More cost-effective reach than traditional banking" |} ] |}.

(** A sort that satisfies what [sort_values] needs and keeps ties in order. *)
Definition stable_argsort (keys : list Q) : list nat :=
  List.map snd (sort_by (fun a b => Qle_bool (fst a) (fst b))
                        (combine keys (seq 0 (List.length keys)))).

Inductive SegmentName : Type :=
| Digital_Champions | Mobile_Only_Users | Traditional_Banking | Financially_Excluded.

(** The mask that [show_market_segments] uses for a segment. *)
Definition member (s : SegmentName) : Row -> bool :=
  match s with
  | Digital_Champions => is_digital_champion
  | Mobile_Only_Users => is_mobile_only
  | Traditional_Banking => is_bank_only
  | Financially_Excluded => is_excluded
  end.

(** The pair (has_bank_account, uses_mobile_money) that defines a segment. *)
Definition flags_of (s : SegmentName) : Z * Z :=
  match s with
  | Digital_Champions => (1, 1)
  | Mobile_Only_Users => (0, 1)
  | Traditional_Banking => (1, 0)
  | Financially_Excluded => (0, 0)
  end.

Definition is_flag (z : Z) : Prop := z = 0 \/ z = 1.

(** The two flags the segments are built from are 0/1 in every row. *)
Definition flags_boolean (rs : list Row) : Prop :=
  Forall (fun r => is_flag (has_bank_account (base r)) /\
                   is_flag (uses_mobile_money (base r))) rs.




Fixpoint list_nat_eqb (l1 l2 : list nat) : bool :=
  match l1, l2 with
  | [], [] => true
  | a :: l1', b :: l2' => (a =? b)%nat && list_nat_eqb l1' l2'
  | _, _ => false
  end.

Fixpoint ascending (l : list Q) : bool :=
  match l with
  | a :: ((b :: _) as l') => Qle_bool a b && ascending l'
  | _ => true
  end.

(** What every sort gives for [argsort]: [idx] holds each position of [keys]
    once, and the keys taken in that order do not decrease.  Nothing is said
    about the order of equal keys. *)
Definition is_argsort (keys : list Q) (idx : list nat) : bool :=
  list_nat_eqb (sort_by Nat.leb idx) (seq 0 (List.length keys)) &&
  ascending (take_idx idx keys).


(** The array of inclusion rates that [sort_values] hands to [argsort]. *)
Definition province_rates (rs : list Row) : list Q :=
  non_nan_values (List.map ps_any_formal_service (province_groups rs)).


(** Five times the [k]/5 quantile of sorted data: an integer. *)
Definition qnum (s : list Z) (k : Z) : Z :=
  let n := Z.of_nat (List.length s) in
  let h := (n - 1) * k in
  let i := h / 5 in
  let lo := nth (Z.to_nat i) s 0 in
  let hi := nth (Z.to_nat (Z.min (i + 1) (n - 1))) s 0 in
  5 * lo + (h mod 5) * (hi - lo).

(** The quintile [pd.qcut] gives an income [v], read off the six edges
    (times five): the lowest edge itself belongs to Q1, then the first edge
    that is not below [v] decides. *)
Definition quintile_of (s : list Z) (v : Z) : option Quintile :=
  if 5 * v =? qnum s 0 then Some Q1
  else if 5 * v <=? qnum s 0 then None
  else if 5 * v <=? qnum s 1 then Some Q1
  else if 5 * v <=? qnum s 2 then Some Q2
  else if 5 * v <=? qnum s 3 then Some Q3
  else if 5 * v <=? qnum s 4 then Some Q4
  else if 5 * v <=? qnum s 5 then Some Q5
  else None.

(** The row [prepare_analysis_data] makes of a merged row, given the income
    column [x] of the whole table. *)
Definition prepared_row (x : list Z) (m : Merged) : Row :=
  mkRow m (formal_flag m)
        (bin_label (quantiles x 5) quintile_labels true
                   (inject_Z (monthly_income_rwf m))).

(** The position in the sorted column that the [k]/5 quantile starts from. *)
Definition qidx (n : nat) (k : Z) : nat := Z.to_nat (((Z.of_nat n - 1) * k) / 5).

(** The number of incomes of a column [x] that [pd.qcut] puts in [q]. *)
Definition bucket_size (q : Quintile) (s x : list Z) : nat :=
  List.length (List.filter (fun v => same_category Quintile_eqb q (quintile_of s v)) x).

Definition quintile_rank (q : Quintile) : Z :=
  match q with Q1 => 1 | Q2 => 2 | Q3 => 3 | Q4 => 4 | Q5 => 5 end.

(** The number of rows of a prepared table that are in quintile [q]. *)
Definition quintile_size (q : Quintile) (df : list Row) : Z :=
  Z.of_nat (List.length
    (List.filter (fun r => same_category Quintile_eqb q (income_quintile r)) df)).

Definition distinct_demographics : list Demographics :=
  [ mkDemographics 1 "Kigali" "Urban" 30 "University" 60000;
    mkDemographics 2 "Kigali" "Urban" 41 "Secondary" 30000;
    mkDemographics 3 "Northern" "Rural" 22 "Primary" 10000;
    mkDemographics 4 "Northern" "Rural" 58 "Primary" 50000;
    mkDemographics 5 "Southern" "Rural" 35 "Secondary" 40000;
    mkDemographics 6 "Southern" "Urban" 47 "University" 70000;
    mkDemographics 7 "Eastern" "Rural" 19 "None" 20000 ].

Definition distinct_table : list Row :=
  match prepare_analysis_data distinct_demographics sample_financial_services with
  | Ok df => df
  | Raise _ => []
  end.

(** [Series.unique()] on a string column: its distinct values in order of
    first appearance. *)
Fixpoint unique_strings (l : list string) : list string :=
  match l with
  | [] => []
  | x :: l' => x :: List.filter (fun y => negb (String.eqb x y)) (unique_strings l')
  end.

(** The options of the "Select Provinces" multiselect of [main], which are
    also its default selection: [df['province'].unique()]. *)
Definition province_options (df : DataFrame) : list string :=
  unique_strings (List.map (fun r => province (base r)) (rows df)).

(** The five service flags of a row are 0/1. *)
Definition service_flags_boolean (r : Row) : Prop :=
  is_flag (has_bank_account (base r)) /\ is_flag (uses_mobile_money (base r)) /\
  is_flag (has_savings (base r)) /\ is_flag (has_loan (base r)) /\
  is_flag (uses_insurance (base r)).

(** The entry of the segment summary for one segment: none for an empty
    segment. *)
Definition summary_rows (df : DataFrame) (seg : string * DataFrame) : list SegmentRow :=
  if len (snd seg) >? 0 then
    [ {| Segment := fst seg;
         Size := len (snd seg);
         Percentage := Qred (inject_Z (len (snd seg)) / inject_Z (len df));
         Avg_Income := mean_of income (rows (snd seg));
         Urban_pct := mean_of (fun r => boolQ (String.eqb (urban_rural (base r)) "Urban"))
                              (rows (snd seg));
         Avg_Literacy := mean_of literacy (rows (snd seg)) |} ]
  else [].

(** The four segments of a frame, as [show_market_segments] names them. *)
Definition segment_frames (df : DataFrame) : list (string * DataFrame) :=
  [("Digital Champions", getitem df is_digital_champion);
   ("Mobile-Only Users", getitem df is_mobile_only);
   ("Traditional Banking", getitem df is_bank_only);
   ("Financially Excluded", getitem df is_excluded)].

(** The strict order of Python strings. *)
Definition string_lt (a b : string) : Prop := String.compare a b = Lt.

(** * Properties *)

(** ** Lists, masks and sorting *)

Lemma select_map_filter {A} (f : A -> bool) (l : list A) :
  select (List.map f l) l = List.filter f l.
Proof.
  unfold select. induction l as [|a l IH]; simpl; [reflexivity|].
  destruct (f a); simpl; now rewrite IH.
Qed.

Lemma rows_getitem (df : DataFrame) (mask : Row -> bool) :
  rows (getitem df mask) = List.filter mask (rows df).
Proof. unfold getitem; simpl. apply select_map_filter. Qed.

Lemma len_getitem_le (df : DataFrame) (mask : Row -> bool) :
  len (getitem df mask) <= len df.
Proof.
  unfold len. rewrite rows_getitem.
  pose proof (List.filter_length_le mask (rows df)). lia.
Qed.

Lemma in_combine_map {A B} (f : A -> B) (l : list A) (a : A) (b : B) :
  In (a, b) (combine l (List.map f l)) -> b = f a.
Proof.
  induction l as [|x l IH]; simpl; [tauto|].
  intros [H|H]; [now inversion H | auto].
Qed.

Lemma insert_by_perm {A} (leb : A -> A -> bool) (x : A) (l : list A) :
  Permutation (insert_by leb x l) (x :: l).
Proof.
  induction l as [|y l IH]; simpl; [reflexivity|].
  destruct (leb x y); [reflexivity|].
  rewrite IH. apply perm_swap.
Qed.

Lemma sort_by_perm {A} (leb : A -> A -> bool) (l : list A) :
  Permutation (sort_by leb l) l.
Proof.
  induction l as [|x l IH]; simpl; [reflexivity|].
  unfold sort_by in *; simpl. rewrite insert_by_perm. now constructor.
Qed.

Section SortBy.
Context {A : Type} (leb : A -> A -> bool).
Hypothesis leb_total : forall a b, leb a b = true \/ leb b a = true.
Hypothesis leb_trans : forall a b c, leb a b = true -> leb b c = true -> leb a c = true.

Let le (a b : A) : Prop := leb a b = true.

Lemma insert_by_sorted (x : A) (l : list A) :
  StronglySorted le l -> StronglySorted le (insert_by leb x l).
Proof using leb_total leb_trans.
  induction 1 as [|y l Hs IH Hall]; simpl.
  - repeat constructor.
  - destruct (leb x y) eqn:E.
    + constructor; [now constructor|].
      constructor; [exact E|].
      eapply List.Forall_impl; [|exact Hall]. intros z Hz. eapply leb_trans; eauto.
    + constructor; [exact IH|].
      assert (Hyx : le y x) by (destruct (leb_total x y); [congruence|assumption]).
      eapply Permutation_Forall; [symmetry; apply insert_by_perm|].
      now constructor.
Qed.

Lemma sort_by_sorted (l : list A) : StronglySorted le (sort_by leb l).
Proof using leb_total leb_trans.
  induction l as [|x l IH]; [constructor|].
  unfold sort_by in *; simpl. now apply insert_by_sorted.
Qed.
End SortBy.

Lemma StronglySorted_weaken {A} (R S : A -> A -> Prop) (l : list A) :
  (forall a b, R a b -> S a b) -> StronglySorted R l -> StronglySorted S l.
Proof.
  intros HRS. induction 1 as [|a l Hs IH Hall]; constructor; [exact IH|].
  eapply List.Forall_impl; [|exact Hall]. auto.
Qed.

Lemma sort_values_Z_sorted (l : list Z) : StronglySorted Z.le (sort_values_Z l).
Proof.
  unfold sort_values_Z.
  apply (StronglySorted_weaken (fun a b => Z.leb a b = true)).
  - intros a b H. now apply Z.leb_le.
  - apply sort_by_sorted.
    + intros a b. rewrite !Z.leb_le. lia.
    + intros a b c. rewrite !Z.leb_le. lia.
Qed.

(** ** The store *)

Lemma deref_new (st : Store) (df : DataFrame) :
  deref (st ++ [df])%list (List.length st) = df.
Proof.
  unfold deref. rewrite lookup_app_r by lia.
  replace (List.length st - List.length st)%nat with 0%nat by lia. reflexivity.
Qed.

(** ** Sample data *)

Lemma sample_prepared :
  prepare_analysis_data sample_demographics sample_financial_services = Ok sample_table.
Proof. vm_compute. reflexivity. Qed.

(** ** The inclusion flag *)

Lemma prepare_rows demographics financial_services df :
  prepare_analysis_data demographics financial_services = Ok df ->
  forall r, In r df -> any_formal_service r = formal_flag (base r).
Proof.
  unfold prepare_analysis_data, rbind.
  destruct (qcut _ _ _) as [quint|e]; [|discriminate].
  intros [= <-] r Hr.
  apply List.in_map_iff in Hr as [[[m a] q] [<- Hin]]. simpl.
  apply in_combine_l in Hin. now apply in_combine_map in Hin.
Qed.

(** C1: in every row of the prepared table, [any_formal_service] is true
    exactly when at least one of [has_bank_account], [uses_mobile_money] and
    [has_savings] is set (equal to 1) in that row. *)
Theorem any_formal_service_iff demographics financial_services df r :
  prepare_analysis_data demographics financial_services = Ok df ->
  In r df ->
  any_formal_service r = true <->
  has_bank_account (base r) = 1 \/ uses_mobile_money (base r) = 1 \/
  has_savings (base r) = 1.
Proof.
  intros Hprep Hr. rewrite (prepare_rows _ _ _ Hprep r Hr).
  unfold formal_flag. rewrite !orb_true_iff, !Z.eqb_eq. tauto.
Qed.

Lemma any_formal_service_iff_witness :
  let r := nth 3 sample_table (mkRow (join_row (mkDemographics 0 "" "" 0 "" 0)
                                        (mkFinancialServices 0 0 0 0 0 0 0)) false None) in
  any_formal_service r = true <->
  has_bank_account (base r) = 1 \/ uses_mobile_money (base r) = 1 \/
  has_savings (base r) = 1.
Proof.
  apply (any_formal_service_iff sample_demographics sample_financial_services sample_table).
  - vm_compute. reflexivity.
  - vm_compute. auto 10.
Defined.

(** ** Filtering *)

Lemma keepsb_keeps provinces urbanRural r :
  keepsb provinces urbanRural r = true <-> keeps provinces urbanRural r.
Proof.
  unfold keepsb, keeps. rewrite andb_true_iff, existsb_exists.
  split.
  - intros [[p [Hp Heq]] Hu]. apply String.eqb_eq in Heq. subst p. split; [exact Hp|].
    destruct urbanRural; [exact I | now apply String.eqb_eq ..].
  - intros [Hp Hu]. split.
    + exists (province (base r)). split; [exact Hp | apply String.eqb_refl].
    + destruct urbanRural; [reflexivity | now apply String.eqb_eq ..].
Qed.

Lemma filter_filter {A} (f g : A -> bool) (l : list A) :
  List.filter g (List.filter f l) = List.filter (fun x => f x && g x) l.
Proof.
  induction l as [|a l IH]; simpl; [reflexivity|].
  destruct (f a); simpl; [destruct (g a)|]; now rewrite IH.
Qed.

Lemma filtered_view_rows df provinces urbanRural st :
  rows (filtered_view df provinces urbanRural st) =
  List.filter (keepsb provinces urbanRural) (rows (deref st df)).
Proof.
  unfold filtered_view, apply_filters, boolean_index.
  destruct urbanRural; simpl.
  - rewrite deref_new, rows_getitem. apply List.filter_ext.
    intros r. unfold keepsb, isin. now rewrite andb_true_r.
  - rewrite !deref_new, !rows_getitem. apply filter_filter.
  - rewrite !deref_new, !rows_getitem. apply filter_filter.
Qed.

(** C6: filtering keeps exactly the rows of the table, in table order, whose
    province is one of the selected provinces and, for the selections Urban
    and Rural, whose urban/rural category is that very string; the selection
    All keeps every row of the selected provinces, and an empty province
    selection keeps no row, whatever the urban/rural selection. *)
Theorem apply_filters_keeps_exactly df provinces urbanRural st :
  let table := rows (deref st df) in
  rows (filtered_view df provinces urbanRural st)
    = List.filter (keepsb provinces urbanRural) table /\
  (forall r, In r (rows (filtered_view df provinces urbanRural st)) <->
             In r table /\ keeps provinces urbanRural r) /\
  rows (filtered_view df provinces All st)
    = List.filter (fun r => isin provinces (province (base r))) table /\
  rows (filtered_view df [] urbanRural st) = [].
Proof.
  intros table. split; [|split; [|split]].
  - apply filtered_view_rows.
  - intros r. rewrite filtered_view_rows, List.filter_In, keepsb_keeps. reflexivity.
  - rewrite filtered_view_rows. apply List.filter_ext.
    intros r. unfold keepsb, isin. now rewrite andb_true_r.
  - rewrite filtered_view_rows. unfold keepsb. simpl.
    induction (rows (deref st df)) as [|a l IH]; simpl; auto.
Qed.

(** ** What filtering and the views do to the frames *)

Lemma cut_ages (ages : list Z) :
  cut ages age_bins age_labels = Ok (List.map age_cell ages).
Proof.
  unfold cut, _bins_to_cuts. cbn [increasing age_bins Z.leb Z.compare andb].
  rewrite List.map_map. reflexivity.
Qed.

Lemma take_idx_nil {A} (idx : list nat) : take_idx idx (@nil A) = [].
Proof.
  unfold take_idx. induction idx as [|i idx IH]; simpl; [reflexivity|].
  rewrite IH. now destruct i.
Qed.

Lemma for_each_segment_row_ok (df : DataFrame) (segs : list (string * DataFrame))
    (acc : list SegmentRow) :
  Forall (fun seg => len (snd seg) <= len df) segs ->
  exists data, for_each (segment_row df) segs acc = Ok data.
Proof.
  intros Hall. revert acc.
  induction Hall as [|[name seg] segs Hle _ IH]; intros acc; simpl.
  - now exists acc.
  - simpl in Hle. unfold py_truediv.
    destruct (len seg >? 0) eqn:Hpos; simpl; [|apply IH].
    destruct (len df =? 0) eqn:Hz; [lia|]. simpl. apply IH.
Qed.

Lemma show_market_segments_ok (df : DataFrame) :
  exists data,
    show_market_segments df =
    (Ok {| segments := [("Digital Champions", len (getitem df is_digital_champion));
                        ("Mobile-Only Users", len (getitem df is_mobile_only));
                        ("Traditional Banking", len (getitem df is_bank_only));
                        ("Financially Excluded", len (getitem df is_excluded))];
           segment_data := data |}, df).
Proof.
  unfold show_market_segments, bind, get, lift, ret.
  edestruct (for_each_segment_row_ok df) as [data ->];
    [|exists data; reflexivity].
  repeat constructor; simpl; apply len_getitem_le.
Qed.

Lemma show_demographic_analysis_frame (df : DataFrame) :
  snd (show_demographic_analysis df)
    = {| rows := rows df;
         age_group := Some (List.map (fun r => age_cell (age (base r))) (rows df));
         service_count := service_count df |}.
Proof.
  unfold show_demographic_analysis, bind, get, lift, ret, setitem_age_group.
  rewrite cut_ages. simpl. now rewrite List.map_map.
Qed.

(** C4 as stated fails: the demographic view gives the frame it is handed a
    new column [age_group]. *)
Lemma demographic_view_changes_frame :
  let df := frame_of sample_table in
  age_group df = None /\
  age_group (snd (show_demographic_analysis df))
    = Some [Some Age26_35; Some Age36_45; Some Age18_25; Some Age56plus;
            Some Age26_35; Some Age46_55; Some Age18_25; Some Age26_35;
            Some Age56plus; Some Age46_55] /\
  snd (show_demographic_analysis df) <> df.
Proof.
  split; [reflexivity|]. split; [vm_compute; reflexivity|].
  intros H. apply (f_equal age_group) in H. vm_compute in H. discriminate.
Qed.

(** C4, amended: filtering creates new frame objects and changes none that
    existed, the table included, and so does a whole run of [main]; the
    executive, provincial, market-segment and policy views return the frame
    they are handed as it was; the demographic view attaches the column
    [age_group] and the service-usage view the column [service_count] to that
    frame, changing no row and no other column. *)
Theorem frame_effects argsort df table analysis_type provinces urbanRural st :
  firstn (List.length st) (snd (apply_filters table provinces urbanRural st)) = st /\
  firstn (List.length st)
         (snd (main argsort table analysis_type provinces urbanRural st)) = st /\
  snd (show_executive_overview df) = df /\
  snd (show_provincial_analysis argsort df) = df /\
  snd (show_market_segments df) = df /\
  snd (show_policy_insights df) = df /\
  snd (show_demographic_analysis df)
    = {| rows := rows df;
         age_group := Some (List.map (fun r => age_cell (age (base r))) (rows df));
         service_count := service_count df |} /\
  snd (show_service_usage df)
    = {| rows := rows df;
         age_group := age_group df;
         service_count := Some (List.map count_services (rows df)) |}.
Proof.
  assert (Hfilter : forall ur,
    exists news, snd (apply_filters table provinces ur st) = (st ++ news)%list /\
                 (List.length st <= fst (apply_filters table provinces ur st))%nat).
  { intros ur. unfold apply_filters, boolean_index.
    destruct (negb _); simpl.
    - eexists. rewrite <- app_assoc. split; [reflexivity|]. rewrite length_app. lia.
    - eexists. split; [reflexivity|]. lia. }
  split; [|split].
  - destruct (Hfilter urbanRural) as [news [-> _]]. apply take_app_length.
  - unfold main.
    destruct (Hfilter urbanRural) as [news [Hst Hloc]].
    destruct (apply_filters table provinces urbanRural st) as [l st']. simpl in *.
    subst st'. unfold run. destruct (view_of _ _ _) as [r df']. simpl.
    rewrite take_insert_ge by exact Hloc. apply take_app_length.
  - split; [|split; [|split; [|split; [|split]]]].
    + unfold show_executive_overview, bind, get, lift, ret.
      now destruct (py_truediv _ _).
    + reflexivity.
    + destruct (show_market_segments_ok df) as [data ->]. reflexivity.
    + reflexivity.
    + apply show_demographic_analysis_frame.
    + reflexivity.
Qed.

(** ** Views on a frame without rows *)

(** C2 as stated fails: with no province selected the market-segment view
    returns a page, four segments of size 0 and an empty summary, and raises
    nothing. *)
Lemma empty_selection_returns_page :
  fst (main stable_argsort 0%nat Market_Segments [] All [frame_of sample_table])
    = Ok (SegmentsPage no_data_segments).
Proof. vm_compute. reflexivity. Qed.

(** On a frame without rows the executive overview does fail, in Python's
    division of two ints: [excluded_count / len(df)] is [0 / 0]. *)
Lemma show_executive_overview_no_rows df :
  rows df = [] -> show_executive_overview df = (Raise ZeroDivisionError, df).
Proof.
  destruct df as [rs ag sc]. simpl. intros ->. reflexivity.
Qed.

(** C2, amended: on a filtered view with zero rows the demographic,
    provincial, service-usage, market-segment and policy views raise no
    error; they return empty group tables, NaN means and zero counts.
    Filtering with an empty province selection yields such a view whatever
    the urban/rural selection. *)
Theorem zero_row_views argsort df :
  rows df = [] ->
  fst (show_demographic_analysis df) = Ok no_data_demographic /\
  fst (show_provincial_analysis argsort df) = Ok [] /\
  fst (show_service_usage df) = Ok no_data_service /\
  fst (show_market_segments df) = Ok no_data_segments /\
  fst (show_policy_insights df) = Ok no_data_policy /\
  (forall table urbanRural st, rows (filtered_view table [] urbanRural st) = []).
Proof.
  destruct df as [rs ag sc]. simpl. intros ->.
  split; [reflexivity|]. split; [|repeat split].
  - unfold show_provincial_analysis, bind, get, ret, sort_values.
    cbn [fst rows province_groups groupby List.map group_keys fold_right].
    now rewrite take_idx_nil.
  - intros table urbanRural st. rewrite filtered_view_rows.
    induction (rows (deref st table)) as [|a l IH]; simpl; auto.
Qed.

Lemma zero_row_views_witness :
  fst (show_demographic_analysis (frame_of [])) = Ok no_data_demographic /\
  fst (show_provincial_analysis stable_argsort (frame_of [])) = Ok [] /\
  fst (show_service_usage (frame_of [])) = Ok no_data_service /\
  fst (show_market_segments (frame_of [])) = Ok no_data_segments /\
  fst (show_policy_insights (frame_of [])) = Ok no_data_policy /\
  (forall table urbanRural st, rows (filtered_view table [] urbanRural st) = []).
Proof. apply (zero_row_views stable_argsort (frame_of [])). reflexivity. Defined.

(** ** Market segments *)

Lemma member_flags s r :
  member s r = true <->
  (has_bank_account (base r), uses_mobile_money (base r)) = flags_of s.
Proof.
  destruct s; simpl;
    unfold is_digital_champion, is_mobile_only, is_bank_only, is_excluded;
    rewrite andb_true_iff, !Z.eqb_eq; split.
  all: try (intros [H1 H2]; rewrite H1, H2; reflexivity).
  all: intros H; inversion H; auto.
Qed.

Lemma segment_sizes_sum (rs : list Row) :
  flags_boolean rs ->
  (List.length (List.filter is_digital_champion rs) +
   List.length (List.filter is_mobile_only rs) +
   List.length (List.filter is_bank_only rs) +
   List.length (List.filter is_excluded rs))%nat = List.length rs.
Proof.
  induction 1 as [|r rs [[Hb|Hb] [Hm|Hm]] _ IH]; simpl; [reflexivity|..];
    unfold is_digital_champion, is_mobile_only, is_bank_only, is_excluded in *;
    rewrite Hb, Hm; simpl; lia.
Qed.

(** C5: on a filtered view whose bank and mobile-money flags are 0/1, the
    market-segment view returns four sizes, those of Digital Champions (1,1),
    Mobile-Only (0,1), Traditional Banking (1,0) and Financially Excluded
    (0,0) in (has_bank_account, uses_mobile_money); every row is in exactly
    one segment, and the four sizes add up to the number of rows. *)
Theorem market_segments_partition df :
  flags_boolean (rows df) ->
  (forall s r, member s r = true <->
     (has_bank_account (base r), uses_mobile_money (base r)) = flags_of s) /\
  (forall r, In r (rows df) ->
     exists s, member s r = true /\ forall s', member s' r = true -> s' = s) /\
  exists data,
    fst (show_market_segments df)
      = Ok {| segments :=
                [("Digital Champions", len (getitem df (member Digital_Champions)));
                 ("Mobile-Only Users", len (getitem df (member Mobile_Only_Users)));
                 ("Traditional Banking", len (getitem df (member Traditional_Banking)));
                 ("Financially Excluded", len (getitem df (member Financially_Excluded)))];
              segment_data := data |} /\
    len (getitem df (member Digital_Champions)) +
    len (getitem df (member Mobile_Only_Users)) +
    len (getitem df (member Traditional_Banking)) +
    len (getitem df (member Financially_Excluded)) = len df.
Proof.
  intros Hflags. split; [exact member_flags|]. split.
  - intros r Hr. unfold flags_boolean in Hflags.
    rewrite List.Forall_forall in Hflags. destruct (Hflags r Hr) as [Hb Hm].
    assert (Hex : exists s, (has_bank_account (base r), uses_mobile_money (base r))
                            = flags_of s).
    { destruct Hb as [-> | ->], Hm as [-> | ->];
        [exists Financially_Excluded | exists Mobile_Only_Users
        | exists Traditional_Banking | exists Digital_Champions]; reflexivity. }
    destruct Hex as [s Hs]. exists s. split; [now apply member_flags|].
    intros s' Hs'. apply member_flags in Hs'. rewrite Hs in Hs'.
    destruct s, s'; simpl in Hs'; congruence.
  - destruct (show_market_segments_ok df) as [data Hdata].
    exists data. rewrite Hdata. split; [reflexivity|].
    unfold len. rewrite !rows_getitem. simpl.
    pose proof (segment_sizes_sum (rows df) Hflags). lia.
Qed.

Lemma market_segments_partition_witness :
  let df := frame_of sample_table in
  (forall s r, member s r = true <->
     (has_bank_account (base r), uses_mobile_money (base r)) = flags_of s) /\
  (forall r, In r (rows df) ->
     exists s, member s r = true /\ forall s', member s' r = true -> s' = s) /\
  exists data,
    fst (show_market_segments df)
      = Ok {| segments :=
                [("Digital Champions", len (getitem df (member Digital_Champions)));
                 ("Mobile-Only Users", len (getitem df (member Mobile_Only_Users)));
                 ("Traditional Banking", len (getitem df (member Traditional_Banking)));
                 ("Financially Excluded", len (getitem df (member Financially_Excluded)))];
              segment_data := data |} /\
    len (getitem df (member Digital_Champions)) +
    len (getitem df (member Mobile_Only_Users)) +
    len (getitem df (member Traditional_Banking)) +
    len (getitem df (member Financially_Excluded)) = len df.
Proof.
  apply (market_segments_partition (frame_of sample_table)).
  unfold flags_boolean. vm_compute.
  repeat (apply List.Forall_cons; [split; auto|]). apply List.Forall_nil.
Defined.

(** ** The distribution of [service_count] *)

Lemma in_distinct (v : Z) (l : list Z) : In v (distinct l) <-> In v l.
Proof.
  induction l as [|x l IH]; simpl; [tauto|].
  rewrite List.filter_In, IH, negb_true_iff, Z.eqb_neq.
  destruct (Z.eq_dec x v); [tauto|]. split; [tauto|].
  intros [H|H]; [tauto|]. right. split; [exact H | congruence].
Qed.

Lemma NoDup_distinct (l : list Z) : List.NoDup (distinct l).
Proof.
  induction l as [|x l IH]; simpl; constructor.
  - rewrite List.filter_In, negb_true_iff, Z.eqb_neq. tauto.
  - now apply List.NoDup_filter.
Qed.

Lemma count_of_pos (v : Z) (l : list Z) : 0 < count_of v l <-> In v l.
Proof.
  unfold count_of. induction l as [|x l IH]; simpl; [lia|].
  destruct (x =? v) eqn:E; simpl.
  - apply Z.eqb_eq in E. split; [auto | lia].
  - apply Z.eqb_neq in E. rewrite IH. split; [auto | intros [H|H]; [congruence | exact H]].
Qed.

Lemma StronglySorted_strict (l : list Z) :
  StronglySorted Z.le l -> List.NoDup l -> StronglySorted Z.lt l.
Proof.
  induction 1 as [|a l Hs IH Hall]; intros Hnd; constructor.
  - apply IH. now inversion Hnd.
  - inversion Hnd as [|? ? Hnotin _]; subst.
    rewrite List.Forall_forall in *. intros x Hx.
    specialize (Hall x Hx). assert (a <> x) by (intros ->; contradiction). lia.
Qed.

Lemma StronglySorted_map {A B} (f : A -> B) (R : B -> B -> Prop) (l : list A) :
  StronglySorted (fun a b => R (f a) (f b)) l -> StronglySorted R (List.map f l).
Proof.
  induction 1 as [|a l Hs IH Hall]; simpl; constructor; [exact IH|].
  rewrite List.Forall_map. exact Hall.
Qed.

Lemma sort_index_value_counts (col : list Z) :
  let dist := sort_index (value_counts col) in
  StronglySorted Z.lt (List.map fst dist) /\
  forall v c, In (v, c) dist <-> c = count_of v col /\ 0 < c.
Proof.
  intros dist.
  assert (Hperm : Permutation dist
            (List.map (fun v => (v, count_of v col)) (distinct col))).
  { unfold dist, sort_index, value_counts. now rewrite !sort_by_perm. }
  split.
  - apply StronglySorted_strict.
    + apply StronglySorted_map.
      apply (StronglySorted_weaken (fun a b => (fst a <=? fst b) = true)).
      * intros a b H. now apply Z.leb_le.
      * apply sort_by_sorted.
        -- intros a b. rewrite !Z.leb_le. lia.
        -- intros a b c. rewrite !Z.leb_le. lia.
    + eapply Permutation_NoDup.
      * symmetry. apply Permutation_map. exact Hperm.
      * rewrite List.map_map. simpl. rewrite List.map_id. apply NoDup_distinct.
  - intros v c. split.
    + intros Hin. eapply Permutation_in in Hin; [|exact Hperm].
      apply List.in_map_iff in Hin as [v' [[= -> <-] Hv]].
      split; [reflexivity|]. apply count_of_pos. now apply in_distinct.
    + intros [-> Hpos]. eapply Permutation_in; [symmetry; exact Hperm|].
      apply List.in_map_iff. exists v. split; [reflexivity|].
      apply in_distinct. now apply count_of_pos.
Qed.

(** C8 as stated fails: in the view of the Kigali rows only one and four
    services occur, and the distribution has just those two buckets. *)
Lemma service_dist_omits_empty_buckets :
  exists p,
    fst (main stable_argsort 0%nat Service_Usage ["Kigali"] All [frame_of sample_table])
      = Ok (ServicePage p) /\
    service_dist p = [(1, 1); (4, 1)].
Proof. eexists. split; vm_compute; reflexivity. Qed.

(** C8, amended: the service-usage view's distribution of [service_count]
    is a count histogram, in ascending order of the value, over exactly the
    values that occur in the filtered view, each with its (positive) number
    of rows; a value that no row has gets no bucket. *)
Theorem service_dist_observed_values df :
  exists p,
    fst (show_service_usage df) = Ok p /\
    StronglySorted Z.lt (List.map fst (service_dist p)) /\
    forall v c, In (v, c) (service_dist p) <->
                c = count_of v (List.map count_services (rows df)) /\ 0 < c.
Proof.
  eexists. split; [reflexivity|]. simpl.
  apply sort_index_value_counts.
Qed.

(** ** Age groups *)

Lemma Qle_bool_inject_Z (a b : Z) : Qle_bool (inject_Z a) (inject_Z b) = (a <=? b).
Proof. unfold Qle_bool, inject_Z. simpl. now rewrite !Z.mul_1_r. Qed.

Lemma float_ltb_inject_Z (a b : Z) :
  float_ltb (Some (inject_Z a)) (Some (inject_Z b)) = (a <? b).
Proof.
  unfold float_ltb. rewrite Qle_bool_inject_Z.
  destruct (Z.leb_spec b a), (Z.ltb_spec a b); simpl; auto; lia.
Qed.

Lemma age_cell_cases (a : Z) :
  age_cell a =
  if a <=? 0 then None
  else if a <=? 25 then Some Age18_25
  else if a <=? 35 then Some Age26_35
  else if a <=? 45 then Some Age36_45
  else if a <=? 55 then Some Age46_55
  else if a <=? 100 then Some Age56plus
  else None.
Proof.
  unfold age_cell, bin_label, age_bins, age_labels.
  cbn [List.map searchsorted_left andb List.length].
  rewrite !float_ltb_inject_Z.
  destruct (Z.leb_spec a 0), (Z.leb_spec a 25), (Z.leb_spec a 35),
    (Z.leb_spec a 45), (Z.leb_spec a 55), (Z.leb_spec a 100); try lia;
    repeat match goal with
           | |- context [?x <? ?y] =>
               let H := fresh in
               destruct (Z.ltb_spec x y) as [H|H]; try lia
           end; reflexivity.
Qed.

(** Above 100 the age falls outside the last bin, (55,100], and the cell is
    NaN, although the bin's label reads "56+". *)
Lemma age_over_100_unlabelled (a : Z) : 100 < a -> age_cell a = None.
Proof.
  intros H. rewrite age_cell_cases.
  repeat match goal with
         | |- context [?x <=? ?y] => destruct (Z.leb_spec x y); try lia
         end; reflexivity.
Qed.




(** ** The provincial table *)

Lemma list_nat_eqb_eq (l1 l2 : list nat) : list_nat_eqb l1 l2 = true -> l1 = l2.
Proof.
  revert l2. induction l1 as [|a l1 IH]; intros [|b l2]; simpl; try discriminate; auto.
  rewrite andb_true_iff, Nat.eqb_eq. intros [-> H]. f_equal. auto.
Qed.


Lemma is_argsort_perm (keys : list Q) (idx : list nat) :
  is_argsort keys idx = true -> Permutation idx (seq 0 (List.length keys)).
Proof.
  unfold is_argsort. rewrite andb_true_iff. intros [H _].
  apply list_nat_eqb_eq in H. rewrite <- H. symmetry. apply sort_by_perm.
Qed.


Lemma take_idx_seq (idx : list nat) (n : nat) :
  Forall (fun i => (i < n)%nat) idx -> take_idx idx (seq 0 n) = idx.
Proof.
  unfold take_idx. induction 1 as [|i idx Hi _ IH]; simpl; [reflexivity|].
  rewrite IH. assert (E : nth_error (seq 0 n) i = Some i).
  { rewrite (List.nth_error_nth' _ 0%nat) by now rewrite List.length_seq.
    now rewrite List.seq_nth. }
  now rewrite E.
Qed.

Lemma take_idx_app_l {A} (idx : list nat) (l k : list A) :
  Forall (fun i => (i < List.length l)%nat) idx ->
  take_idx idx (l ++ k)%list = take_idx idx l.
Proof.
  unfold take_idx. induction 1 as [|i idx Hi _ IH]; simpl; [reflexivity|].
  now rewrite IH, List.nth_error_app1.
Qed.

Lemma take_idx_all {A} (l : list A) : take_idx (seq 0 (List.length l)) l = l.
Proof.
  unfold take_idx. induction l as [|a l IH] using List.rev_ind; [reflexivity|].
  rewrite List.length_app. cbn [List.length]. rewrite Nat.add_1_r.
  rewrite List.seq_S, List.flat_map_app. cbn [flat_map Nat.add].
  rewrite List.nth_error_app2, Nat.sub_diag by lia. cbn [nth_error].
  rewrite List.app_nil_r. f_equal. rewrite <- IH at 2.
  apply take_idx_app_l. rewrite List.Forall_forall.
  intros i Hi. apply List.in_seq in Hi. lia.
Qed.

Lemma take_idx_perm {A} (idx idx' : list nat) (l : list A) :
  Permutation idx idx' -> Permutation (take_idx idx l) (take_idx idx' l).
Proof. intros H. unfold take_idx. now apply Permutation_flat_map. Qed.

Lemma in_insert_key (k x : string) (l : list string) :
  In x (insert_key k l) -> x = k \/ In x l.
Proof.
  induction l as [|k' l IH]; simpl; [intuition auto|].
  destruct (String.compare k k'); simpl; intuition auto.
Qed.

Lemma in_group_keys (x : string) (col : list string) :
  In x (group_keys col) -> In x col.
Proof.
  induction col as [|k col IH]; simpl; [tauto|].
  intros H. apply in_insert_key in H as [->|H]; auto.
Qed.

Lemma mean_of_some (f : Row -> Q) (g : list Row) :
  g <> [] -> exists q, mean_of f g = Some q.
Proof. destruct g; [congruence|]. intros _. eexists. reflexivity. Qed.

(** Every province of the grouped table has rows, so its rates are numbers. *)
Lemma province_groups_rates (rs : list Row) :
  exists rates,
    List.map ps_any_formal_service (province_groups rs) = List.map Some rates.
Proof.
  unfold province_groups, groupby.
  assert (H : forall k, In k (group_keys (List.map (fun r => province (base r)) rs)) ->
                        In k (List.map (fun r => province (base r)) rs))
    by (intros k; apply in_group_keys).
  induction (group_keys _) as [|k ks IH]; simpl.
  - now exists [].
  - destruct IH as [rates IH]; [intros; apply H; now right|].
    destruct (mean_of_some formal
                (List.filter (fun r => String.eqb (province (base r)) k) rs)) as [q Hq].
    + specialize (H k (or_introl eq_refl)).
      apply List.in_map_iff in H as [r [Hk Hr]].
      intros Hnil. assert (Hin : In r (List.filter
                                         (fun r => String.eqb (province (base r)) k) rs)).
      { apply List.filter_In. split; [exact Hr|]. now apply String.eqb_eq. }
      rewrite Hnil in Hin. exact Hin.
    + exists (q :: rates). simpl. now rewrite Hq, IH.
Qed.

Lemma select_all {A} (l : list nat) (items : list A) (f : A -> bool) :
  (forall x, f x = true) -> List.length l = List.length items ->
  select (List.map f items) l = l.
Proof.
  intros Hf. unfold select. revert items.
  induction l as [|i l IH]; intros [|x items]; simpl; try discriminate; auto.
  intros [= Hlen]. rewrite Hf. simpl. f_equal. auto.
Qed.

Lemma select_none {A} (l : list nat) (items : list A) (f : A -> bool) :
  (forall x, f x = false) -> select (List.map f items) l = [].
Proof.
  intros Hf. unfold select. revert items.
  induction l as [|i l IH]; intros [|x items]; simpl; auto.
  rewrite Hf. simpl. auto.
Qed.

Lemma nargsort_numbers argsort (rates : list Q) :
  is_argsort rates (argsort rates) = true ->
  nargsort argsort (List.map Some rates) = argsort rates.
Proof.
  intros Hsort. unfold nargsort.
  assert (Hvals : non_nan_values (List.map Some rates) = rates).
  { clear Hsort. unfold non_nan_values.
    induction rates as [|q l IH]; simpl; [reflexivity|]. f_equal. apply IH. }
  rewrite Hvals, !List.map_map, List.length_map. simpl.
  rewrite select_all, select_none, List.app_nil_r; auto using List.length_seq.
  apply take_idx_seq. apply is_argsort_perm in Hsort.
  rewrite List.Forall_forall. intros i Hi.
  eapply Permutation_in in Hi; [|exact Hsort]. apply List.in_seq in Hi. lia.
Qed.




(** ** Income quintiles *)

Lemma quantile_sorted_qnum (s : list Z) (k : Z) :
  (quantile_sorted s k 5 == qnum s k # 5)%Q.
Proof.
  unfold quantile_sorted. rewrite Qred_correct.
  unfold qnum, Qeq, Qplus, Qmult, inject_Z. simpl. lia.
Qed.

Lemma Qle_bool_quantile (v : Z) (s : list Z) (k : Z) :
  Qle_bool (inject_Z v) (quantile_sorted s k 5) = (5 * v <=? qnum s k).
Proof.
  apply eq_true_iff_eq.
  rewrite Qle_bool_iff, Z.leb_le, quantile_sorted_qnum.
  unfold Qle, inject_Z. simpl. lia.
Qed.

Lemma Qeq_bool_quantile (v : Z) (s : list Z) (k : Z) :
  Qeq_bool (inject_Z v) (quantile_sorted s k 5) = (5 * v =? qnum s k).
Proof.
  apply eq_true_iff_eq.
  rewrite Qeq_bool_iff, Z.eqb_eq, quantile_sorted_qnum.
  unfold Qeq, inject_Z. simpl. lia.
Qed.

Lemma quantiles_edges (x : list Z) :
  x <> [] ->
  quantiles x 5 =
  List.map (fun k => Some (quantile_sorted (sort_values_Z x) k 5)) [0; 1; 2; 3; 4; 5].
Proof. destruct x; [congruence|]. reflexivity. Qed.

Lemma bin_label_quantiles (x : list Z) (v : Z) :
  x <> [] ->
  bin_label (quantiles x 5) quintile_labels true (inject_Z v)
    = quintile_of (sort_values_Z x) v.
Proof.
  intros Hx. rewrite (quantiles_edges x Hx).
  set (s := sort_values_Z x).
  unfold bin_label, quintile_of.
  cbn [List.map searchsorted_left float_ltb float_eqb hd andb List.length quintile_labels].
  rewrite !Qle_bool_quantile, Qeq_bool_quantile.
  destruct (5 * v =? qnum s 0); [reflexivity|].
  repeat match goal with
         | |- context [5 * v <=? qnum s ?k] => destruct (5 * v <=? qnum s k)
         end; reflexivity.
Qed.

Lemma combine_rows (f : Merged -> bool) (g : Merged -> option Quintile)
    (l : list Merged) :
  List.map (fun '(m, a, q) => mkRow m a q)
           (combine (combine l (List.map f l)) (List.map g l))
  = List.map (fun m => mkRow m (f m) (g m)) l.
Proof. induction l as [|m l IH]; simpl; [reflexivity|]. now rewrite IH. Qed.

Lemma prepare_ok_inv demographics financial_services df :
  prepare_analysis_data demographics financial_services = Ok df ->
  let merged := merge demographics financial_services in
  df = List.map (prepared_row (List.map monthly_income_rwf merged)) merged.
Proof.
  intros H merged.
  unfold prepare_analysis_data, qcut, _bins_to_cuts, rbind in H.
  cbv zeta in H. fold merged in H.
  destruct (_ && _) in H; [discriminate|].
  destruct (negb _) in H; [discriminate|].
  injection H as <-. rewrite !List.map_map. apply combine_rows.
Qed.

(** *** Order statistics of a strictly sorted column *)

Lemma sorted_nth_lt (s : list Z) (i j : nat) :
  StronglySorted Z.lt s -> (i < j < List.length s)%nat -> nth i s 0 < nth j s 0.
Proof.
  intros Hs. revert i j.
  induction Hs as [|a s Hs IH Hall]; intros i j Hij; simpl in Hij; [lia|].
  destruct j as [|j]; [lia|]. destruct i as [|i]; simpl.
  - rewrite List.Forall_forall in Hall. apply Hall. apply nth_In. lia.
  - apply IH. lia.
Qed.

Lemma sorted_nth_le (s : list Z) (i j : nat) :
  StronglySorted Z.lt s -> (i <= j < List.length s)%nat -> nth i s 0 <= nth j s 0.
Proof.
  intros Hs Hij. destruct (Nat.eq_dec i j) as [->|Hne]; [lia|].
  pose proof (sorted_nth_lt s i j Hs). lia.
Qed.

Lemma qidx_lt (n : nat) (k : Z) : (0 < n)%nat -> 0 <= k <= 5 -> (qidx n k < n)%nat.
Proof.
  intros Hn Hk. unfold qidx.
  assert (0 <= (Z.of_nat n - 1) * k / 5 <= Z.of_nat n - 1).
  { split; [apply Z.div_pos; nia|]. apply Z.div_le_upper_bound; nia. }
  lia.
Qed.

Lemma qnum_bounds (s : list Z) (k : Z) :
  StronglySorted Z.lt s -> s <> [] -> 0 <= k <= 5 ->
  let i := qidx (List.length s) k in
  5 * nth i s 0 <= qnum s k /\
  ((S i < List.length s)%nat -> qnum s k < 5 * nth (S i) s 0).
Proof.
  intros Hs Hne Hk i.
  assert (Hn : (0 < List.length s)%nat) by (destruct s; [congruence | simpl; lia]).
  pose proof (qidx_lt _ k Hn Hk) as Hi. fold i in Hi.
  unfold qnum. fold (qidx (List.length s) k). fold i.
  set (h := (Z.of_nat (List.length s) - 1) * k) in *.
  assert (Hq : 0 <= h / 5) by (apply Z.div_pos; unfold h; nia).
  assert (Ei : Z.of_nat i = h / 5) by (unfold i, qidx; fold h; lia).
  pose proof (Z.mod_pos_bound h 5 ltac:(lia)) as Hr.
  destruct (Nat.eq_dec (S i) (List.length s)) as [Hlast|Hnl].
  - replace (Z.to_nat (Z.min (h / 5 + 1) (Z.of_nat (List.length s) - 1))) with i by lia.
    split; [lia | intros; lia].
  - replace (Z.to_nat (Z.min (h / 5 + 1) (Z.of_nat (List.length s) - 1))) with (S i) by lia.
    pose proof (sorted_nth_lt s i (S i) Hs ltac:(lia)).
    split; [nia | intros _; nia].
Qed.

Lemma qnum_le_iff (s : list Z) (k : Z) (m : nat) :
  StronglySorted Z.lt s -> 0 <= k <= 5 -> (m < List.length s)%nat ->
  5 * nth m s 0 <= qnum s k <-> (m <= qidx (List.length s) k)%nat.
Proof.
  intros Hs Hk Hm.
  assert (Hne : s <> []) by (destruct s; [simpl in Hm; lia | congruence]).
  destruct (qnum_bounds s k Hs Hne Hk) as [Hlo Hhi].
  pose proof (qidx_lt (List.length s) k ltac:(lia) Hk) as Hi.
  split.
  - intros Hle. destruct (Nat.le_gt_cases m (qidx (List.length s) k)) as [|Hgt]; [assumption|].
    specialize (Hhi ltac:(lia)).
    pose proof (sorted_nth_le s (S (qidx (List.length s) k)) m Hs ltac:(lia)). lia.
  - intros Hle. pose proof (sorted_nth_le s m (qidx (List.length s) k) Hs ltac:(lia)). lia.
Qed.

Lemma filter_none {A} (p : A -> bool) (l : list A) :
  Forall (fun v => p v = false) l -> List.filter p l = [].
Proof. induction 1 as [|v l Hv _ IH]; simpl; [reflexivity|]. now rewrite Hv. Qed.

(** In a strictly sorted column, the values up to a bound that lies between
    the order statistics [i] and [i+1] are the first [i+1]. *)
Lemma count_le_sorted (s : list Z) (c : Z) (i : nat) :
  StronglySorted Z.lt s -> (i < List.length s)%nat ->
  5 * nth i s 0 <= c ->
  ((S i < List.length s)%nat -> c < 5 * nth (S i) s 0) ->
  List.length (List.filter (fun v => 5 * v <=? c) s) = S i.
Proof.
  intros Hs. revert i.
  induction Hs as [|a s Hs IH Hall]; intros i Hi Hlo Hhi; simpl in Hi; [lia|].
  rewrite List.Forall_forall in Hall.
  destruct i as [|i]; simpl in *.
  - assert (Ea : (5 * a <=? c) = true) by (apply Z.leb_le; lia).
    rewrite Ea. simpl. f_equal.
    rewrite filter_none; [reflexivity|].
    rewrite List.Forall_forall. intros v Hv. apply Z.leb_gt.
    destruct s as [|b s]; [contradiction|].
    specialize (Hhi ltac:(simpl; lia)). simpl in Hhi.
    destruct Hv as [<-|Hv]; [lia|].
    inversion Hs as [|? ? _ Hb]; subst. rewrite List.Forall_forall in Hb.
    specialize (Hb v Hv). lia.
  - assert (Ea : (5 * a <=? c) = true).
    { apply Z.leb_le. specialize (Hall (nth i s 0) ltac:(apply nth_In; lia)). lia. }
    rewrite Ea. simpl. f_equal. apply IH; [lia | assumption |].
    intros H. apply Hhi. lia.
Qed.

Lemma count_le_qnum (s : list Z) (k : Z) :
  StronglySorted Z.lt s -> s <> [] -> 0 <= k <= 5 ->
  List.length (List.filter (fun v => 5 * v <=? qnum s k) s)
    = S (qidx (List.length s) k).
Proof.
  intros Hs Hne Hk. destruct (qnum_bounds s k Hs Hne Hk) as [Hlo Hhi].
  apply count_le_sorted; try assumption.
  apply qidx_lt; [destruct s; [congruence | simpl; lia] | assumption].
Qed.

Lemma qnum_0 (s : list Z) : qnum s 0 = 5 * nth 0 s 0.
Proof.
  unfold qnum. rewrite Z.mul_0_r.
  change (0 / 5) with 0. change (0 mod 5) with 0.
  now rewrite Z.mul_0_l, Z.add_0_r.
Qed.

Lemma qidx_0 (n : nat) : qidx n 0 = 0%nat.
Proof. unfold qidx. now rewrite Z.mul_0_r. Qed.

Lemma qidx_5 (n : nat) : (0 < n)%nat -> qidx n 5 = (n - 1)%nat.
Proof. intros Hn. unfold qidx. rewrite Z.div_mul by lia. lia. Qed.

Lemma qidx_mono (n : nat) (j k : Z) :
  (0 < n)%nat -> 0 <= j <= k -> (qidx n j <= qidx n k)%nat.
Proof.
  intros Hn Hjk. unfold qidx. apply Z2Nat.inj_le.
  - apply Z.div_pos; nia.
  - apply Z.div_pos; nia.
  - apply Z.div_le_mono; nia.
Qed.

Lemma leb_qnum_nth (s : list Z) (k : Z) (m : nat) :
  StronglySorted Z.lt s -> 0 <= k <= 5 -> (m < List.length s)%nat ->
  (5 * nth m s 0 <=? qnum s k) = (m <=? qidx (List.length s) k)%nat.
Proof.
  intros Hs Hk Hm. apply eq_true_iff_eq.
  rewrite Z.leb_le, Nat.leb_le. now apply qnum_le_iff.
Qed.

(** The quintile of the [m]-th smallest of pairwise distinct incomes. *)
Lemma quintile_of_nth (s : list Z) (m : nat) :
  StronglySorted Z.lt s -> (m < List.length s)%nat ->
  let n := List.length s in
  quintile_of s (nth m s 0) =
  if (m <=? qidx n 1)%nat then Some Q1
  else if (m <=? qidx n 2)%nat then Some Q2
  else if (m <=? qidx n 3)%nat then Some Q3
  else if (m <=? qidx n 4)%nat then Some Q4
  else Some Q5.
Proof.
  intros Hs Hm n. unfold quintile_of.
  rewrite !leb_qnum_nth by (assumption || lia). fold n.
  pose proof (qidx_0 n) as H0. pose proof (qidx_5 n ltac:(lia)) as H5.
  pose proof (qidx_mono n 0 1 ltac:(lia) ltac:(lia)) as H01.
  assert (E : (5 * nth m s 0 =? qnum s 0) = (m =? 0)%nat).
  { apply eq_true_iff_eq. rewrite Z.eqb_eq, Nat.eqb_eq, qnum_0. split.
    - intros H. destruct m as [|m]; [reflexivity|].
      pose proof (sorted_nth_lt s 0 (S m) Hs ltac:(lia)). lia.
    - now intros ->. }
  rewrite E.
  destruct (Nat.eqb_spec m 0) as [->|Hm0].
  - now rewrite (proj2 (Nat.leb_le 0 _)) by lia.
  - repeat match goal with
           | |- context [(m <=? ?b)%nat] => destruct (Nat.leb_spec m b); try lia
           end; reflexivity.
Qed.

Lemma filter_length_ext_in {A} (p q : A -> bool) (l : list A) :
  (forall v, In v l -> p v = q v) ->
  List.length (List.filter p l) = List.length (List.filter q l).
Proof. intros H. now rewrite (List.filter_ext_in p q l H). Qed.

Lemma filter_length_diff {A} (p q : A -> bool) (l : list A) :
  (forall v, In v l -> p v = true -> q v = true) ->
  (List.length (List.filter (fun v => negb (p v) && q v) l)
   + List.length (List.filter p l))%nat = List.length (List.filter q l).
Proof.
  induction l as [|a l IH]; intros H; simpl; [reflexivity|].
  specialize (IH (fun v Hv => H v (or_intror Hv))).
  pose proof (H a (or_introl eq_refl)) as Ha.
  destruct (p a), (q a); simpl; try lia;
    specialize (Ha eq_refl); discriminate.
Qed.

Lemma filter_length_perm {A} (p : A -> bool) (l l' : list A) :
  Permutation l l' -> List.length (List.filter p l) = List.length (List.filter p l').
Proof.
  induction 1 as [|a l l' _ IH|a b l|l l' l'' _ IH1 _ IH2]; simpl.
  - reflexivity.
  - destruct (p a); simpl; lia.
  - destruct (p a), (p b); simpl; lia.
  - lia.
Qed.

Lemma filter_length_map {A B} (f : A -> B) (p : B -> bool) (l : list A) :
  List.length (List.filter p (List.map f l))
    = List.length (List.filter (fun a => p (f a)) l).
Proof.
  induction l as [|a l IH]; simpl; [reflexivity|].
  destruct (p (f a)); simpl; lia.
Qed.

Lemma bucket_sizes_sorted (s : list Z) :
  StronglySorted Z.lt s -> s <> [] ->
  let n := List.length s in
  bucket_size Q1 s s = S (qidx n 1) /\
  (bucket_size Q2 s s + S (qidx n 1) = S (qidx n 2))%nat /\
  (bucket_size Q3 s s + S (qidx n 2) = S (qidx n 3))%nat /\
  (bucket_size Q4 s s + S (qidx n 3) = S (qidx n 4))%nat /\
  (bucket_size Q5 s s + S (qidx n 4) = n)%nat.
Proof.
  intros Hs Hne n.
  assert (Hn : (0 < n)%nat) by (unfold n; destruct s; [congruence | simpl; lia]).
  pose (P := fun k v => 5 * v <=? qnum s k).
  assert (Hcount : forall k, 0 <= k <= 5 ->
                   List.length (List.filter (P k) s) = S (qidx n k))
    by (intros k Hk; now apply count_le_qnum).
  assert (Hpoint : forall v, In v s -> exists m, (m < n)%nat /\ v = nth m s 0 /\
            forall k, 0 <= k <= 5 -> P k v = (m <=? qidx n k)%nat).
  { intros v Hv. destruct (In_nth s v 0 Hv) as [m [Hm <-]].
    exists m. split; [exact Hm|]. split; [reflexivity|].
    intros k Hk. now apply leb_qnum_nth. }
  pose proof (qidx_mono n 1 2 Hn ltac:(lia)) as H12.
  pose proof (qidx_mono n 2 3 Hn ltac:(lia)) as H23.
  pose proof (qidx_mono n 3 4 Hn ltac:(lia)) as H34.
  pose proof (qidx_mono n 4 5 Hn ltac:(lia)) as H45.
  pose proof (qidx_5 n Hn) as H5.
  assert (Hstep : forall q j, 1 <= j <= 4 ->
            (forall m, (m < n)%nat ->
               same_category Quintile_eqb q
                 (if (m <=? qidx n 1)%nat then Some Q1
                  else if (m <=? qidx n 2)%nat then Some Q2
                  else if (m <=? qidx n 3)%nat then Some Q3
                  else if (m <=? qidx n 4)%nat then Some Q4
                  else Some Q5)
               = negb (m <=? qidx n j)%nat && (m <=? qidx n (j + 1))%nat) ->
            (bucket_size q s s + S (qidx n j) = S (qidx n (j + 1)))%nat).
  { intros q j Hj Hq. unfold bucket_size.
    rewrite <- (Hcount j), <- (Hcount (j + 1)) by lia.
    rewrite <- (filter_length_diff (P j) (P (j + 1)) s).
    - f_equal. apply filter_length_ext_in. intros v Hv.
      destruct (Hpoint v Hv) as (m & Hm & -> & HP).
      rewrite (quintile_of_nth s m Hs Hm). fold n.
      rewrite !HP by lia. now apply Hq.
    - intros v Hv. destruct (Hpoint v Hv) as (m & Hm & -> & HP).
      rewrite !HP by lia. rewrite !Nat.leb_le.
      pose proof (qidx_mono n j (j + 1) Hn ltac:(lia)). lia. }
  split; [|split; [|split; [|split]]].
  - unfold bucket_size. rewrite <- (Hcount 1) by lia.
    apply filter_length_ext_in. intros v Hv.
    destruct (Hpoint v Hv) as (m & Hm & -> & HP).
    rewrite (quintile_of_nth s m Hs Hm). fold n. rewrite HP by lia.
    repeat match goal with
           | |- context [(m <=? ?b)%nat] => destruct (Nat.leb_spec m b); try lia
           end; reflexivity.
  - apply (Hstep Q2 1); [lia|]. intros m Hm. change (1 + 1) with 2.
    repeat match goal with
           | |- context [(m <=? ?b)%nat] => destruct (Nat.leb_spec m b); try lia
           end; reflexivity.
  - apply (Hstep Q3 2); [lia|]. intros m Hm. change (2 + 1) with 3.
    repeat match goal with
           | |- context [(m <=? ?b)%nat] => destruct (Nat.leb_spec m b); try lia
           end; reflexivity.
  - apply (Hstep Q4 3); [lia|]. intros m Hm. change (3 + 1) with 4.
    repeat match goal with
           | |- context [(m <=? ?b)%nat] => destruct (Nat.leb_spec m b); try lia
           end; reflexivity.
  - replace n with (S (qidx n 5)) at 2 by lia.
    apply (Hstep Q5 4); [lia|]. intros m Hm. change (4 + 1) with 5.
    repeat match goal with
           | |- context [(m <=? ?b)%nat] => destruct (Nat.leb_spec m b); try lia
           end; reflexivity.
Qed.

Lemma quintile_of_mono (s : list Z) (v1 v2 : Z) (q1 q2 : Quintile) :
  v1 <= v2 -> quintile_of s v1 = Some q1 -> quintile_of s v2 = Some q2 ->
  quintile_rank q1 <= quintile_rank q2.
Proof.
  intros Hv. unfold quintile_of.
  repeat match goal with
         | |- context [?a =? ?b] => destruct (Z.eqb_spec a b)
         | |- context [?a <=? ?b] => destruct (Z.leb_spec a b)
         end;
    intros Hq1 Hq2; try discriminate;
    injection Hq1 as <-; injection Hq2 as <-; simpl; lia.
Qed.

Lemma sort_values_Z_strict (x : list Z) :
  List.NoDup x -> StronglySorted Z.lt (sort_values_Z x).
Proof.
  intros Hnd. apply StronglySorted_strict; [apply sort_values_Z_sorted|].
  eapply Permutation_NoDup; [|exact Hnd]. symmetry. apply sort_by_perm.
Qed.

Lemma prepared_quintile (x : list Z) (m : Merged) :
  x <> [] ->
  income_quintile (prepared_row x m)
    = quintile_of (sort_values_Z x) (monthly_income_rwf m).
Proof. intros Hx. unfold prepared_row. simpl. now apply bin_label_quantiles. Qed.

(** C3 as stated fails: [pd.qcut] bins by value, so rows with equal incomes
    share a quintile.  In the sample of 10 rows, four rows earn 30000 and all
    are in Q2, and Q3 is empty; the sizes are 2, 4, 0, 2, 2. *)
Lemma quintiles_uneven_with_ties :
  prepare_analysis_data sample_demographics sample_financial_services = Ok sample_table /\
  List.length sample_table = 10%nat /\
  List.map (fun q => quintile_size q sample_table) quintile_labels = [2; 4; 0; 2; 2] /\
  ~ (quintile_size Q2 sample_table = 10 / 5 \/ quintile_size Q2 sample_table = (10 + 4) / 5).
Proof.
  split; [exact sample_prepared|]. split; [reflexivity|].
  split; [vm_compute; reflexivity|].
  vm_compute. intros [H|H]; discriminate H.
Qed.

(** C3, amended: if the monthly incomes of a prepared table of N rows are
    pairwise distinct, [income_quintile] puts every row in one of the five
    groups Q1..Q5, each group has N/5 rounded down or up rows, and a row with
    a lower income never is in a higher quintile than a row with a higher
    income (Q1 holds the lowest incomes, Q5 the highest). *)
Theorem quintiles_of_distinct_incomes demographics financial_services df :
  prepare_analysis_data demographics financial_services = Ok df ->
  List.NoDup (List.map (fun r => monthly_income_rwf (base r)) df) ->
  let N := Z.of_nat (List.length df) in
  (forall r, In r df -> exists q, income_quintile r = Some q) /\
  (forall q, quintile_size q df = N / 5 \/ quintile_size q df = (N + 4) / 5) /\
  (forall r1 r2 q1 q2,
     In r1 df -> In r2 df ->
     income_quintile r1 = Some q1 -> income_quintile r2 = Some q2 ->
     monthly_income_rwf (base r1) <= monthly_income_rwf (base r2) ->
     quintile_rank q1 <= quintile_rank q2).
Proof.
  intros Hprep Hnd N.
  pose proof (prepare_ok_inv _ _ _ Hprep) as Hdf. cbv zeta in Hdf.
  set (merged := merge demographics financial_services) in *.
  set (x := List.map monthly_income_rwf merged) in *.
  assert (Hx : List.map (fun r => monthly_income_rwf (base r)) df = x).
  { rewrite Hdf, List.map_map. reflexivity. }
  rewrite Hx in Hnd.
  assert (Hcases : merged = [] \/ x <> [])
    by (unfold x; destruct merged; [left; reflexivity | right; discriminate]).
  destruct Hcases as [Hnil|Hne].
  { assert (df = []) as -> by now rewrite Hdf, Hnil.
    split; [intros r []|]. split; [intros q; left; reflexivity|].
    intros r1 r2 q1 q2 []. }
  set (s := sort_values_Z x).
  assert (Hs : StronglySorted Z.lt s) by now apply sort_values_Z_strict.
  assert (Hperm : Permutation s x) by apply sort_by_perm.
  assert (Hsne : s <> []).
  { intros E. rewrite E in Hperm. apply Permutation_nil in Hperm. contradiction. }
  assert (Hrow : forall r, In r df ->
            In (monthly_income_rwf (base r)) s /\
            income_quintile r = quintile_of s (monthly_income_rwf (base r))).
  { intros r Hr. rewrite Hdf in Hr. apply List.in_map_iff in Hr as [m [<- Hm]].
    split; [|now apply prepared_quintile].
    eapply Permutation_in; [symmetry; exact Hperm|].
    unfold x. simpl. now apply List.in_map. }
  split; [|split].
  - intros r Hr. destruct (Hrow r Hr) as [Hin ->].
    destruct (In_nth s _ 0 Hin) as [m [Hm <-]].
    rewrite (quintile_of_nth s m Hs Hm).
    repeat match goal with
           | |- context [(m <=? ?b)%nat] => destruct (m <=? b)%nat
           end; eexists; reflexivity.
  - assert (Hsize : forall q, quintile_size q df = Z.of_nat (bucket_size q s s)).
    { intros q. unfold quintile_size, bucket_size. f_equal.
      rewrite (filter_length_perm _ s x Hperm).
      unfold x. rewrite filter_length_map.
      rewrite Hdf at 1. rewrite filter_length_map.
      apply filter_length_ext_in. intros m Hm.
      now rewrite prepared_quintile. }
    assert (Hlen : List.length s = List.length df).
    { rewrite (Permutation_length Hperm). unfold x.
      rewrite Hdf, !List.length_map. reflexivity. }
    destruct (bucket_sizes_sorted s Hs Hsne) as (B1 & B2 & B3 & B4 & B5).
    rewrite Hlen in B1, B2, B3, B4, B5. unfold qidx in *. fold N in B1, B2, B3, B4, B5.
    assert (HN : 0 < N) by (unfold N; rewrite <- Hlen; destruct s; [congruence | simpl; lia]).
    assert (HNdf : N = Z.of_nat (List.length df)) by reflexivity.
    clearbody N.
    intros q. rewrite Hsize. destruct q; Z.to_euclidean_division_equations; lia.
  - intros r1 r2 q1 q2 Hr1 Hr2 E1 E2 Hle.
    destruct (Hrow r1 Hr1) as [_ H1]. destruct (Hrow r2 Hr2) as [_ H2].
    rewrite H1 in E1. rewrite H2 in E2.
    exact (quintile_of_mono s _ _ q1 q2 Hle E1 E2).
Qed.

Lemma quintiles_of_distinct_incomes_witness :
  let df := distinct_table in
  let N := Z.of_nat (List.length df) in
  (forall r, In r df -> exists q, income_quintile r = Some q) /\
  (forall q, quintile_size q df = N / 5 \/ quintile_size q df = (N + 4) / 5) /\
  (forall r1 r2 q1 q2,
     In r1 df -> In r2 df ->
     income_quintile r1 = Some q1 -> income_quintile r2 = Some q2 ->
     monthly_income_rwf (base r1) <= monthly_income_rwf (base r2) ->
     quintile_rank q1 <= quintile_rank q2).
Proof.
  apply (quintiles_of_distinct_incomes distinct_demographics sample_financial_services).
  - vm_compute. reflexivity.
  - vm_compute. repeat (apply List.NoDup_cons; [simpl; lia|]). apply List.NoDup_nil.
Defined.

(** *** When the quintile computation fails *)

Lemma in_unique (y : float) (l : list float) : In y (unique l) -> In y l.
Proof.
  induction l as [|x l IH]; simpl; [tauto|].
  intros [H|H]; [now left|]. apply List.filter_In in H. right. now apply IH.
Qed.

Lemma unique_all_equal (e : float) (l : list float) :
  Forall (fun y => float_eqb e y = true) l -> unique (e :: l) = [e].
Proof.
  intros H. simpl. f_equal. apply filter_none.
  rewrite List.Forall_forall in *. intros y Hy.
  apply in_unique in Hy. now rewrite (H y Hy).
Qed.

Lemma nth_constant (s : list Z) (a : Z) (i : nat) :
  (forall v, In v s -> v = a) -> (i < List.length s)%nat -> nth i s 0 = a.
Proof. intros H Hi. apply H. now apply nth_In. Qed.

Lemma qnum_constant (s : list Z) (a k : Z) :
  (forall v, In v s -> v = a) -> s <> [] -> 0 <= k <= 5 -> qnum s k = 5 * a.
Proof.
  intros H Hne Hk.
  assert (Hn : (0 < List.length s)%nat) by (destruct s; [congruence | simpl; lia]).
  pose proof (qidx_lt _ k Hn Hk) as Hi. unfold qidx in Hi.
  unfold qnum.
  assert (Hq : 0 <= (Z.of_nat (List.length s) - 1) * k / 5) by (apply Z.div_pos; nia).
  rewrite !(nth_constant s a) by (assumption || lia). lia.
Qed.

Lemma distinct_one (x : list Z) :
  (List.length (distinct x) < 2)%nat ->
  exists a, forall v, In v x -> v = a.
Proof.
  destruct x as [|a x']; [exists 0; intros v []|].
  intros Hlen. exists a. intros v Hv. apply in_distinct in Hv.
  simpl in Hv, Hlen. destruct Hv as [<-|Hv]; [reflexivity|].
  destruct (List.filter _ _); [destruct Hv | simpl in Hlen; lia].
Qed.

(** C10 as stated fails: an income column with three distinct values is
    binned without error, into Q1, Q3 and Q5. *)
Lemma three_incomes_prepared :
  let demographics := firstn 3 (skipn 2 distinct_demographics) in
  List.map d_monthly_income_rwf demographics = [10000; 50000; 40000] /\
  List.length (distinct (List.map monthly_income_rwf
                           (merge demographics sample_financial_services))) = 3%nat /\
  exists df,
    prepare_analysis_data demographics sample_financial_services = Ok df /\
    List.map income_quintile df = [Some Q1; Some Q5; Some Q3].
Proof.
  split; [reflexivity|]. split; [vm_compute; reflexivity|].
  eexists. split; vm_compute; reflexivity.
Qed.

(** C10, amended: when the monthly income column has fewer than 2 distinct
    values (all incomes equal, or no row at all), the quintile computation in
    [prepare_analysis_data] fails, with pandas' ValueError for bin edges that
    are not unique, and no table is produced. *)
Theorem prepare_fails_on_constant_income demographics financial_services :
  (List.length (distinct (List.map monthly_income_rwf
                            (merge demographics financial_services))) < 2)%nat ->
  prepare_analysis_data demographics financial_services
    = Raise (ValueError "Bin edges must be unique").
Proof.
  intros Hlen. apply distinct_one in Hlen as [a Ha].
  unfold prepare_analysis_data, qcut, _bins_to_cuts.
  set (x := List.map monthly_income_rwf (merge demographics financial_services)) in *.
  assert (Hcheck : ((List.length (unique (quantiles x 5)) <? List.length (quantiles x 5))%nat
                    && negb (List.length (quantiles x 5) =? 2)%nat) = true).
  { destruct (list_eq_nil_dec x) as [->|Hne]; [reflexivity|].
    rewrite (quantiles_edges x Hne).
    set (s := sort_values_Z x).
    assert (Hs : forall v, In v s -> v = a).
    { intros v Hv. apply Ha. eapply Permutation_in; [apply sort_by_perm|exact Hv]. }
    assert (Hsne : s <> []).
    { intros E. pose proof (sort_by_perm Z.leb x) as Hp. fold (sort_values_Z x) in Hp.
      fold s in Hp. rewrite E in Hp. apply Permutation_nil in Hp. contradiction. }
    cbn [List.map]. rewrite unique_all_equal; [reflexivity|].
    repeat constructor; cbn [float_eqb]; apply Qeq_bool_iff;
      rewrite !quantile_sorted_qnum, !(qnum_constant s a) by (assumption || lia);
      reflexivity. }
  cbv zeta. rewrite Hcheck. reflexivity.
Qed.

Lemma prepare_fails_on_constant_income_witness :
  prepare_analysis_data (firstn 2 (skipn 3 sample_demographics))
                        sample_financial_services
    = Raise (ValueError "Bin edges must be unique").
Proof.
  apply (prepare_fails_on_constant_income
           (firstn 2 (skipn 3 sample_demographics)) sample_financial_services).
  vm_compute. lia.
Defined.

(** *** When the quintile computation succeeds *)

Lemma qnum_strict_mono (s : list Z) (k : Z) :
  StronglySorted Z.lt s -> (2 <= List.length s)%nat -> 0 <= k < 5 ->
  qnum s k < qnum s (k + 1).
Proof.
  intros Hs Hlen Hk.
  assert (Hne : s <> []) by (destruct s; [simpl in Hlen; lia | congruence]).
  destruct (qnum_bounds s k Hs Hne ltac:(lia)) as [Hlo Hhi].
  destruct (qnum_bounds s (k + 1) Hs Hne ltac:(lia)) as [Hlo' _].
  pose proof (qidx_lt (List.length s) (k + 1) ltac:(lia) ltac:(lia)) as Hi'.
  pose proof (qidx_mono (List.length s) k (k + 1) ltac:(lia) ltac:(lia)) as Hmono.
  destruct (Nat.eq_dec (qidx (List.length s) k) (qidx (List.length s) (k + 1)))
    as [Heq|Hneq].
  - clear Hlo Hhi Hlo'. unfold qidx in Heq, Hi'. unfold qnum.
    set (n := Z.of_nat (List.length s)) in *.
    assert (Hn : 2 <= n) by (unfold n; lia).
    assert (Hq : 0 <= (n - 1) * k / 5) by (apply Z.div_pos; nia).
    assert (Hq' : 0 <= (n - 1) * (k + 1) / 5) by (apply Z.div_pos; nia).
    assert (Eq : (n - 1) * (k + 1) / 5 = (n - 1) * k / 5) by lia.
    rewrite Eq.
    pose proof (Z.div_mod ((n - 1) * k) 5 ltac:(lia)) as D.
    pose proof (Z.div_mod ((n - 1) * (k + 1)) 5 ltac:(lia)) as D'.
    pose proof (Z.mod_pos_bound ((n - 1) * k) 5 ltac:(lia)) as R.
    pose proof (Z.mod_pos_bound ((n - 1) * (k + 1)) 5 ltac:(lia)) as R'.
    rewrite Eq in D'.
    set (i := (n - 1) * k / 5) in *.
    assert (Hr : (n - 1) * k mod 5 < (n - 1) * (k + 1) mod 5) by nia.
    assert (Hi : i + 1 <= n - 1) by nia.
    replace (Z.min (i + 1) (n - 1)) with (i + 1) by lia.
    pose proof (sorted_nth_lt s (Z.to_nat i) (Z.to_nat (i + 1)) Hs ltac:(lia)).
    nia.
  - specialize (Hhi ltac:(lia)).
    pose proof (sorted_nth_le s (S (qidx (List.length s) k))
                  (qidx (List.length s) (k + 1)) Hs ltac:(lia)).
    lia.
Qed.

Lemma filter_all {A} (p : A -> bool) (l : list A) :
  Forall (fun v => p v = true) l -> List.filter p l = l.
Proof. induction 1 as [|v l Hv _ IH]; simpl; [reflexivity|]. now rewrite Hv, IH. Qed.

Lemma unique_distinct (l : list float) :
  StronglySorted (fun a b => float_eqb a b = false) l -> unique l = l.
Proof.
  induction 1 as [|x l _ IH Hall]; simpl; [reflexivity|].
  rewrite IH. f_equal. apply filter_all.
  eapply List.Forall_impl; [|exact Hall]. intros y Hy. simpl in Hy. now rewrite Hy.
Qed.

(** With at least two rows and pairwise distinct incomes the six quantile
    edges are distinct, and [prepare_analysis_data] returns a table. *)
Lemma prepare_succeeds_on_distinct_incomes demographics financial_services :
  let x := List.map monthly_income_rwf (merge demographics financial_services) in
  List.NoDup x -> (2 <= List.length x)%nat ->
  exists df, prepare_analysis_data demographics financial_services = Ok df.
Proof.
  intros x Hnd Hlen.
  unfold prepare_analysis_data, qcut, _bins_to_cuts. cbv zeta. fold x.
  assert (Hne : x <> []) by (destruct x; [simpl in Hlen; lia | congruence]).
  rewrite (quantiles_edges x Hne).
  set (s := sort_values_Z x).
  assert (Hs : StronglySorted Z.lt s) by now apply sort_values_Z_strict.
  assert (Hslen : (2 <= List.length s)%nat).
  { unfold s, sort_values_Z. now rewrite (Permutation_length (sort_by_perm Z.leb x)). }
  pose proof (qnum_strict_mono s 0 Hs Hslen ltac:(lia)) as H01.
  pose proof (qnum_strict_mono s 1 Hs Hslen ltac:(lia)) as H12.
  pose proof (qnum_strict_mono s 2 Hs Hslen ltac:(lia)) as H23.
  pose proof (qnum_strict_mono s 3 Hs Hslen ltac:(lia)) as H34.
  pose proof (qnum_strict_mono s 4 Hs Hslen ltac:(lia)) as H45.
  change (0 + 1) with 1 in H01. change (1 + 1) with 2 in H12.
  change (2 + 1) with 3 in H23. change (3 + 1) with 4 in H34.
  change (4 + 1) with 5 in H45.
  rewrite unique_distinct.
  - simpl. eexists. reflexivity.
  - cbn [List.map].
    repeat match goal with
           | |- StronglySorted _ _ => constructor
           | |- Forall _ _ => constructor
           end;
      cbn [float_eqb]; apply not_true_iff_false; rewrite Qeq_bool_iff;
      rewrite !quantile_sorted_qnum; unfold Qeq; simpl; lia.
Qed.

(** * Further properties of the pipeline *)

(** ** The merge *)

(** X1: a row is in the merged table exactly when it joins a demographics
    row and a financial-services row with the same [respondent_id]; rows
    without a partner on the other side are dropped. *)
Theorem merge_rows_match demographics financial_services m :
  In m (merge demographics financial_services) <->
  exists d f, In d demographics /\ In f financial_services /\
              f_respondent_id f = d_respondent_id d /\ m = join_row d f.
Proof.
  unfold merge. rewrite List.in_flat_map. split.
  - intros [d [Hd Hm]]. apply List.in_map_iff in Hm as [f [<- Hf]].
    apply List.filter_In in Hf as [Hf Hid]. apply Z.eqb_eq in Hid.
    exists d, f. auto.
  - intros (d & f & Hd & Hf & Hid & ->). exists d. split; [exact Hd|].
    apply List.in_map. apply List.filter_In. split; [exact Hf | now apply Z.eqb_eq].
Qed.

Lemma filter_key_unique {A} (g : A -> Z) (k : Z) (l : list A) :
  List.NoDup (List.map g l) ->
  (List.length (List.filter (fun y => (g y =? k)%Z) l) <= 1)%nat.
Proof.
  induction l as [|y l IH]; simpl; [lia|].
  intros Hnd. inversion Hnd as [|? ? Hnotin Hnd']; subst.
  destruct (g y =? k) eqn:E; [|now apply IH].
  apply Z.eqb_eq in E. simpl. rewrite filter_none; [simpl; lia|].
  rewrite List.Forall_forall. intros z Hz. apply Z.eqb_neq. intros Hgz.
  apply Hnotin. rewrite E, <- Hgz. now apply List.in_map.
Qed.

Lemma filter_length_disjoint {A} (p q : A -> bool) (l : list A) :
  (forall x, In x l -> p x = true -> q x = false) ->
  (List.length (List.filter p l) + List.length (List.filter q l))%nat
  = List.length (List.filter (fun x => p x || q x) l).
Proof.
  induction l as [|a l IH]; intros H; simpl; [reflexivity|].
  specialize (IH (fun x Hx => H x (or_intror Hx))).
  pose proof (H a (or_introl eq_refl)) as Ha.
  destruct (p a); simpl; [rewrite (Ha eq_refl); simpl; lia|].
  destruct (q a); simpl; lia.
Qed.

Lemma merge_length_left (demographics : list Demographics)
    (financial_services : list FinancialServices) :
  List.NoDup (List.map f_respondent_id financial_services) ->
  (List.length (merge demographics financial_services)
   <= List.length demographics)%nat.
Proof.
  intros Hnd. unfold merge.
  induction demographics as [|d ds IH]; simpl; [lia|].
  rewrite List.length_app, List.length_map.
  pose proof (filter_key_unique f_respondent_id (d_respondent_id d)
                financial_services Hnd). lia.
Qed.

Lemma merge_length_right (demographics : list Demographics)
    (financial_services : list FinancialServices) :
  List.NoDup (List.map d_respondent_id demographics) ->
  (List.length (merge demographics financial_services)
   <= List.length financial_services)%nat.
Proof.
  intros Hnd.
  enough (H : (List.length (merge demographics financial_services)
               <= List.length (List.filter
                    (fun f => existsb (fun d => (f_respondent_id f =? d_respondent_id d)%Z)
                                      demographics) financial_services))%nat).
  { pose proof (List.filter_length_le
                  (fun f => existsb (fun d => f_respondent_id f =? d_respondent_id d)
                                    demographics) financial_services). lia. }
  unfold merge.
  induction demographics as [|d ds IH]; simpl; [lia|].
  inversion Hnd as [|? ? Hnotin Hnd']; subst.
  rewrite List.length_app, List.length_map.
  rewrite <- filter_length_disjoint.
  - specialize (IH Hnd'). lia.
  - intros f _ Hf. apply Z.eqb_eq in Hf.
    apply not_true_iff_false. intros Hex.
    apply List.existsb_exists in Hex as [d' [Hd' Hid]]. apply Z.eqb_eq in Hid.
    apply Hnotin. rewrite <- Hf, Hid. now apply List.in_map.
Qed.

(** X2: when no [respondent_id] occurs twice in either source, the merged
    table has at most as many rows as the smaller source. *)
Theorem merge_size_bound demographics financial_services :
  List.NoDup (List.map d_respondent_id demographics) ->
  List.NoDup (List.map f_respondent_id financial_services) ->
  (List.length (merge demographics financial_services)
   <= Nat.min (List.length demographics) (List.length financial_services))%nat.
Proof.
  intros Hd Hf.
  pose proof (merge_length_left demographics financial_services Hf).
  pose proof (merge_length_right demographics financial_services Hd). lia.
Qed.

Lemma merge_size_bound_witness :
  (List.length (merge distinct_demographics sample_financial_services)
   <= Nat.min (List.length distinct_demographics)
              (List.length sample_financial_services))%nat.
Proof.
  apply (merge_size_bound distinct_demographics sample_financial_services).
  - vm_compute. repeat (apply List.NoDup_cons; [simpl; lia|]). apply List.NoDup_nil.
  - vm_compute. repeat (apply List.NoDup_cons; [simpl; lia|]). apply List.NoDup_nil.
Defined.

(** ** The prepared table *)

(** X3: [prepare_analysis_data], when it returns, returns the merged table
    with two more columns: the merged columns of the rows, their number and
    their order are those of the merge. *)
Theorem prepare_keeps_merged_rows demographics financial_services df :
  prepare_analysis_data demographics financial_services = Ok df ->
  List.map base df = merge demographics financial_services.
Proof.
  intros H. rewrite (prepare_ok_inv _ _ _ H) at 1.
  rewrite List.map_map. simpl. apply List.map_id.
Qed.

Lemma prepare_keeps_merged_rows_witness :
  List.map base sample_table = merge sample_demographics sample_financial_services.
Proof.
  apply (prepare_keeps_merged_rows sample_demographics sample_financial_services).
  vm_compute. reflexivity.
Defined.













(** ** Which views can fail *)

Lemma len_zero_iff (df : DataFrame) : len df = 0 <-> rows df = [].
Proof.
  unfold len. destruct (rows df); simpl; split; intros H; try reflexivity;
    try discriminate; lia.
Qed.

Lemma show_executive_overview_result (df : DataFrame) :
  (rows df = [] /\ fst (show_executive_overview df) = Raise ZeroDivisionError) \/
  (rows df <> [] /\ exists p, fst (show_executive_overview df) = Ok p).
Proof.
  unfold show_executive_overview, bind, get, lift, ret, py_truediv.
  destruct (len df =? 0) eqn:E.
  - left. apply Z.eqb_eq in E. split; [now apply len_zero_iff | reflexivity].
  - right. apply Z.eqb_neq in E. split; [|eexists; reflexivity].
    intros H. apply E. now apply len_zero_iff.
Qed.

(** X5: the executive overview fails exactly on a view without rows, with
    Python's ZeroDivisionError, and returns its page on every other view. *)
Theorem executive_overview_fails_iff_empty df :
  (fst (show_executive_overview df) = Raise ZeroDivisionError <-> rows df = []) /\
  ((exists p, fst (show_executive_overview df) = Ok p) <-> rows df <> []).
Proof.
  destruct (show_executive_overview_result df) as [[He Hr]|[Hne [p Hp]]].
  - rewrite Hr. split; split; intros H; try tauto; try reflexivity.
    + destruct H as [p Hp]. discriminate.
  - rewrite Hp. split; split; intros H; try tauto; try discriminate.
    now exists p.
Qed.





(** ** Rates of the executive overview *)





Lemma Qsum_unit_bounds (l : list Q) :
  Forall (fun q => 0 <= q <= 1)%Q l ->
  (0 <= Qsum l <= inject_Z (Z.of_nat (List.length l)))%Q.
Proof.
  induction 1 as [|q l [Hq0 Hq1] _ [IH0 IH1]]; simpl Qsum; simpl List.length.
  - split; apply Qle_refl.
  - rewrite Nat2Z.inj_succ, <- Z.add_1_l, inject_Z_plus. split.
    + apply (Qplus_le_compat 0 q 0 (Qsum l)); assumption.
    + apply Qplus_le_compat; assumption.
Qed.

Lemma mean_unit (l : list Q) :
  l <> [] -> Forall (fun q => 0 <= q <= 1)%Q l ->
  exists q, mean l = Some q /\ (0 <= q <= 1)%Q.
Proof.
  intros Hne Hall. destruct (Qsum_unit_bounds l Hall) as [H0 H1].
  destruct l as [|a l]; [congruence|].
  eexists. split; [reflexivity|]. rewrite Qred_correct.
  set (n := inject_Z (Z.of_nat (List.length (a :: l)))) in *.
  assert (Hn : (0 < n)%Q) by (unfold n, Qlt; simpl; lia).
  split.
  - apply Qle_shift_div_l; [exact Hn|]. now rewrite Qmult_0_l.
  - apply Qle_shift_div_r; [exact Hn|]. now rewrite Qmult_1_l.
Qed.

Lemma flagQ_unit (z : Z) : is_flag z -> (0 <= flagQ z <= 1)%Q.
Proof. intros [-> | ->]; unfold flagQ, Qle; simpl; lia. Qed.

Lemma mean_of_flag_unit (f : Row -> Q) (rs : list Row) :
  rs <> [] -> Forall (fun r => 0 <= f r <= 1)%Q rs ->
  exists q, mean_of f rs = Some q /\ (0 <= q <= 1)%Q.
Proof.
  intros Hne Hall. apply mean_unit.
  - destruct rs; [congruence | discriminate].
  - now apply List.Forall_map.
Qed.

(** X8: on a view with rows whose five service flags are 0/1, every
    adoption rate of the executive overview, the inclusion rate and the
    mobile-money rate are numbers between 0 and 1. *)
Theorem adoption_rates_in_unit_interval df :
  rows df <> [] -> Forall service_flags_boolean (rows df) ->
  exists p,
    fst (show_executive_overview df) = Ok p /\
    Forall (fun rate => exists q, snd rate = Some q /\ (0 <= q <= 1)%Q) (eo_rates p) /\
    (exists q, eo_formal_inclusion p = Some q /\ (0 <= q <= 1)%Q) /\
    (exists q, eo_mobile_money p = Some q /\ (0 <= q <= 1)%Q).
Proof.
  intros Hne Hflags.
  assert (Hlen : len df <> 0) by (intros H; apply Hne; now apply len_zero_iff).
  unfold show_executive_overview, bind, get, lift, ret, py_truediv.
  apply Z.eqb_neq in Hlen. rewrite Hlen. cbn [fst].
  eexists. split; [reflexivity|].
  cbn [eo_rates eo_formal_inclusion eo_mobile_money].
  assert (Hflag : forall (g : Merged -> Z),
            (forall r, service_flags_boolean r -> is_flag (g (base r))) ->
            exists q, mean_of (fun r => flagQ (g (base r))) (rows df) = Some q /\
                      (0 <= q <= 1)%Q).
  { intros g Hg. apply mean_of_flag_unit; [exact Hne|].
    eapply List.Forall_impl; [|exact Hflags]. intros r Hr. apply flagQ_unit. auto. }
  split; [|split].
  - repeat constructor; cbn [snd];
      [apply (Hflag has_bank_account) | apply (Hflag uses_mobile_money)
      | apply (Hflag has_savings) | apply (Hflag has_loan)
      | apply (Hflag uses_insurance)];
      intros r Hr; unfold service_flags_boolean in Hr; tauto.
  - apply mean_of_flag_unit; [exact Hne|].
    rewrite List.Forall_forall. intros r _. unfold formal, boolQ, Qle.
    destruct (any_formal_service r); simpl; lia.
  - apply (Hflag uses_mobile_money).
    intros r Hr; unfold service_flags_boolean in Hr; tauto.
Qed.

Lemma adoption_rates_in_unit_interval_witness :
  exists p,
    fst (show_executive_overview (frame_of sample_table)) = Ok p /\
    Forall (fun rate => exists q, snd rate = Some q /\ (0 <= q <= 1)%Q) (eo_rates p) /\
    (exists q, eo_formal_inclusion p = Some q /\ (0 <= q <= 1)%Q) /\
    (exists q, eo_mobile_money p = Some q /\ (0 <= q <= 1)%Q).
Proof.
  apply (adoption_rates_in_unit_interval (frame_of sample_table)).
  - vm_compute. discriminate.
  - unfold service_flags_boolean. vm_compute.
    repeat (apply List.Forall_cons; [repeat split; auto|]). apply List.Forall_nil.
Defined.

(** ** The segment summary *)

Lemma for_each_segment_rows (df : DataFrame) (segs : list (string * DataFrame))
    (acc : list SegmentRow) :
  Forall (fun seg => len (snd seg) <= len df) segs ->
  for_each (segment_row df) segs acc
  = Ok (acc ++ flat_map (summary_rows df) segs)%list.
Proof.
  intros Hall. revert acc.
  induction Hall as [|[name seg] segs Hle _ IH]; intros acc; simpl.
  - now rewrite List.app_nil_r.
  - simpl in Hle. unfold summary_rows at 1. cbn [fst snd]. unfold py_truediv.
    destruct (len seg >? 0) eqn:Hpos; simpl.
    + destruct (len df =? 0) eqn:Hz; [lia|]. simpl.
      rewrite IH, <- List.app_assoc. reflexivity.
    + apply IH.
Qed.

Lemma show_market_segments_summary (df : DataFrame) :
  show_market_segments df
  = (Ok {| segments := List.map (fun s => (fst s, len (snd s))) (segment_frames df);
           segment_data := flat_map (summary_rows df) (segment_frames df) |}, df).
Proof.
  unfold show_market_segments, bind, get, lift, ret.
  fold (segment_frames df).
  rewrite for_each_segment_rows; [reflexivity|].
  unfold segment_frames. repeat constructor; simpl; apply len_getitem_le.
Qed.

(** X9: the summary table of the market-segment view has one entry for
    each segment that has members, in the order Digital Champions,
    Mobile-Only Users, Traditional Banking, Financially Excluded, with the
    size reported for that segment and the share size / number of rows; a
    segment without members has no entry. *)
Theorem segment_summary_entries df :
  exists p,
    fst (show_market_segments df) = Ok p /\
    List.map (fun row => (Segment row, Size row)) (segment_data p)
      = List.filter (fun s => 0 <? snd s) (segments p) /\
    Forall (fun row => 0 < Size row /\
                       (Percentage row == inject_Z (Size row) / inject_Z (len df))%Q)
           (segment_data p).
Proof.
  rewrite show_market_segments_summary. eexists. split; [reflexivity|].
  cbn [segments segment_data].
  induction (segment_frames df) as [|[name seg] segs [IH1 IH2]]; simpl.
  - split; [reflexivity | constructor].
  - unfold summary_rows at 1 3. cbn [fst snd].
    destruct (Z.ltb_spec 0 (len seg)) as [Hpos|Hnp].
    + rewrite (proj2 (Z.gtb_lt _ _) Hpos). simpl. rewrite IH1.
      split; [reflexivity|]. constructor; [|exact IH2].
      simpl. split; [exact Hpos | apply Qred_correct].
    + assert (E : (len seg >? 0) = false).
      { destruct (len seg >? 0) eqn:E; [|reflexivity]. apply Z.gtb_lt in E. lia. }
      rewrite E. simpl. now split.
Qed.




(** ** The histogram of [service_count] *)

Lemma Zsum_perm (l l' : list Z) :
  Permutation l l' -> fold_right Z.add 0 l = fold_right Z.add 0 l'.
Proof. induction 1; simpl; lia. Qed.

Lemma Zsum_split (g : Z -> Z) (x : Z) (D : list Z) :
  List.NoDup D -> (~ In x D -> g x = 0) ->
  fold_right Z.add 0 (List.map g D)
  = g x + fold_right Z.add 0
            (List.map g (List.filter (fun y => negb (y =? x)) D)).
Proof.
  induction 1 as [|d D Hd Hnd IH]; intros Hx; simpl.
  - rewrite Hx by tauto. reflexivity.
  - destruct (Z.eqb_spec d x) as [->|Hne]; simpl.
    + rewrite filter_all; [reflexivity|].
      rewrite List.Forall_forall. intros y Hy. apply negb_true_iff, Z.eqb_neq.
      intros ->. contradiction.
    + rewrite IH; [lia|]. intros Hnot. apply Hx. intros [E|E]; [congruence|tauto].
Qed.

Lemma count_of_cons_ne (v x : Z) (l : list Z) :
  v <> x -> count_of v (x :: l) = count_of v l.
Proof.
  intros Hne. unfold count_of. simpl.
  destruct (Z.eqb_spec x v); [congruence | reflexivity].
Qed.

Lemma count_of_total (col : list Z) :
  fold_right Z.add 0 (List.map (fun v => count_of v col) (distinct col))
  = Z.of_nat (List.length col).
Proof.
  induction col as [|x l IH]; [reflexivity|].
  cbn [distinct List.map fold_right].
  rewrite (List.map_ext_in (fun v => count_of v (x :: l)) (fun v => count_of v l)).
  - rewrite (Zsum_split (fun v => count_of v l) x (distinct l)) in IH.
    + unfold count_of at 1. simpl. rewrite Z.eqb_refl. simpl.
      unfold count_of at 1 in IH. lia.
    + apply NoDup_distinct.
    + intros Hnot. rewrite in_distinct in Hnot.
      destruct (Z.lt_total 0 (count_of x l)) as [H|[H|H]]; [|lia|].
      * apply count_of_pos in H. contradiction.
      * unfold count_of in H. lia.
  - intros v Hv. apply List.filter_In in Hv as [_ Hv].
    apply negb_true_iff, Z.eqb_neq in Hv. now apply count_of_cons_ne.
Qed.

(** X11: the counts of the service-usage view's histogram add up to the
    number of rows of the view: every row is counted in one bucket. *)
Theorem service_dist_total df :
  exists p,
    fst (show_service_usage df) = Ok p /\
    fold_right Z.add 0 (List.map snd (service_dist p)) = len df.
Proof.
  eexists. split; [reflexivity|].
  set (col := List.map count_services (rows df)).
  assert (Hperm : Permutation (sort_index (value_counts col))
            (List.map (fun v => (v, count_of v col)) (distinct col))).
  { unfold sort_index, value_counts. now rewrite !sort_by_perm. }
  assert (Hsum : fold_right Z.add 0 (List.map snd (sort_index (value_counts col)))
                 = len df).
  { rewrite (Zsum_perm _ _ (Permutation_map snd Hperm)).
    rewrite List.map_map. cbn [snd]. rewrite count_of_total.
    unfold len, col. now rewrite List.length_map. }
  exact Hsum.
Qed.

Lemma sorted_range_length (l : list Z) (a b : Z) :
  StronglySorted Z.lt l -> Forall (fun v => a <= v <= b) l ->
  Z.of_nat (List.length l) <= Z.max 0 (b - a + 1).
Proof.
  intros Hs. revert a.
  induction Hs as [|x l Hs IH Hall]; intros a Hr; simpl List.length; [lia|].
  inversion Hr as [|? ? Hx Hr']; subst.
  assert (Hr2 : Forall (fun v => x + 1 <= v <= b) l).
  { rewrite List.Forall_forall in *. intros v Hv.
    specialize (Hall v Hv). specialize (Hr' v Hv). lia. }
  specialize (IH (x + 1) Hr2). lia.
Qed.

(** X12: on a view whose five service flags are 0/1, the histogram of the
    service-usage view has buckets for values from 0 to 5 only, so at most
    six of them. *)
Theorem service_dist_range df :
  Forall service_flags_boolean (rows df) ->
  exists p,
    fst (show_service_usage df) = Ok p /\
    Forall (fun bucket => 0 <= fst bucket <= 5) (service_dist p) /\
    (List.length (service_dist p) <= 6)%nat.
Proof.
  intros Hflags. eexists. split; [reflexivity|].
  change (service_dist _) with
    (sort_index (value_counts (List.map count_services (rows df)))).
  set (col := List.map count_services (rows df)).
  destruct (sort_index_value_counts col) as [Hsorted Hin].
  assert (Hrange : Forall (fun bucket => 0 <= fst bucket <= 5)
                          (sort_index (value_counts col))).
  { rewrite List.Forall_forall. intros [v c] Hvc. apply Hin in Hvc as [-> Hpos].
    apply count_of_pos in Hpos. unfold col in Hpos.
    apply List.in_map_iff in Hpos as [r [<- Hr]].
    rewrite List.Forall_forall in Hflags.
    destruct (Hflags r Hr) as (H1 & H2 & H3 & H4 & H5).
    unfold count_services, is_flag in *. simpl. lia. }
  split; [exact Hrange|].
  pose proof (sorted_range_length _ 0 5 Hsorted) as Hlen.
  rewrite List.length_map in Hlen.
  assert (Forall (fun v => 0 <= v <= 5) (List.map fst (sort_index (value_counts col))))
    by now apply List.Forall_map.
  specialize (Hlen H). lia.
Qed.

Lemma service_dist_range_witness :
  exists p,
    fst (show_service_usage (frame_of sample_table)) = Ok p /\
    Forall (fun bucket => 0 <= fst bucket <= 5) (service_dist p) /\
    (List.length (service_dist p) <= 6)%nat.
Proof.
  apply (service_dist_range (frame_of sample_table)).
  unfold service_flags_boolean. vm_compute.
  repeat (apply List.Forall_cons; [repeat split; auto|]). apply List.Forall_nil.
Defined.

(** ** Groups *)

Lemma string_lt_trans (a b c : string) : string_lt a b -> string_lt b c -> string_lt a c.
Proof.
  unfold string_lt. intros Hab Hbc.
  apply OrderedTypeEx.String_as_OT.cmp_lt.
  apply OrderedTypeEx.String_as_OT.cmp_lt in Hab, Hbc.
  eapply OrderedTypeEx.String_as_OT.lt_trans; eassumption.
Qed.

Lemma string_lt_irrefl (a : string) : ~ string_lt a a.
Proof.
  unfold string_lt. intros H. pose proof (String.compare_antisym a a) as Ha.
  rewrite H in Ha. discriminate.
Qed.

Lemma string_gt_lt (a b : string) : String.compare a b = Gt -> string_lt b a.
Proof.
  unfold string_lt. intros H. rewrite String.compare_antisym, H. reflexivity.
Qed.

Lemma in_insert_key_iff (k x : string) (l : list string) :
  In x (insert_key k l) <-> x = k \/ In x l.
Proof.
  split; [apply in_insert_key|].
  induction l as [|k' l IH]; simpl; [intuition auto|].
  destruct (String.compare k k') eqn:E; simpl.
  - apply String.compare_eq_iff in E. subst k'. intuition auto.
  - intuition auto.
  - intuition auto.
Qed.

Lemma in_group_keys_iff (x : string) (col : list string) :
  In x (group_keys col) <-> In x col.
Proof.
  induction col as [|k col IH]; simpl; [tauto|].
  rewrite in_insert_key_iff, IH. intuition auto.
Qed.

Lemma insert_key_sorted (k : string) (l : list string) :
  StronglySorted string_lt l -> StronglySorted string_lt (insert_key k l).
Proof.
  induction 1 as [|k' l Hs IH Hall]; simpl; [repeat constructor|].
  destruct (String.compare k k') eqn:E.
  - now constructor.
  - constructor; [now constructor|]. constructor; [exact E|].
    eapply List.Forall_impl; [|exact Hall].
    intros y Hy. eapply string_lt_trans; [exact E | exact Hy].
  - constructor; [exact IH|].
    rewrite List.Forall_forall in *. intros y Hy.
    apply in_insert_key in Hy as [->|Hy]; [now apply string_gt_lt | auto].
Qed.

Lemma group_keys_sorted (col : list string) : StronglySorted string_lt (group_keys col).
Proof.
  induction col as [|k col IH]; simpl; [constructor|]. now apply insert_key_sorted.
Qed.

Lemma sorted_strings_NoDup (l : list string) :
  StronglySorted string_lt l -> List.NoDup l.
Proof.
  induction 1 as [|k l Hs IH Hall]; constructor; [|exact IH].
  intros Hin. rewrite List.Forall_forall in Hall.
  exact (string_lt_irrefl k (Hall k Hin)).
Qed.

Lemma groupby_keys {A} (key : A -> string) (rs : list A) :
  List.map fst (groupby key rs) = group_keys (List.map key rs).
Proof. unfold groupby. rewrite List.map_map. simpl. apply List.map_id. Qed.

Lemma groupby_groups {A} (key : A -> string) (rs : list A) :
  Forall (fun g => snd g <> [] /\
                   snd g = List.filter (fun r => String.eqb (key r) (fst g)) rs)
         (groupby key rs).
Proof.
  unfold groupby. rewrite List.Forall_map, List.Forall_forall. intros k Hk. simpl.
  split; [|reflexivity].
  apply in_group_keys in Hk. apply List.in_map_iff in Hk as [r [Hkey Hr]].
  intros Hnil.
  assert (Hin : In r (List.filter (fun r => String.eqb (key r) k) rs)).
  { apply List.filter_In. split; [exact Hr | now apply String.eqb_eq]. }
  rewrite Hnil in Hin. exact Hin.
Qed.

(** X13: the education table of the demographic view has one row for each
    education level that occurs in the view and no other row; the rows are in
    ascending order of the level's name, and the three means of each row are
    numbers, never NaN. *)
Theorem education_groups df :
  exists p,
    fst (show_demographic_analysis df) = Ok p /\
    StronglySorted string_lt (List.map fst (edu_analysis p)) /\
    (forall k, In k (List.map fst (edu_analysis p)) <->
               exists r, In r (rows df) /\ education (base r) = k) /\
    Forall (fun g => exists a b c, snd g = (Some a, Some b, Some c)) (edu_analysis p).
Proof.
  unfold show_demographic_analysis, bind, get, lift, ret, setitem_age_group.
  rewrite cut_ages. eexists. split; [reflexivity|]. cbn [edu_analysis].
  set (groups := groupby (fun r => education (base r)) (rows df)).
  assert (Hkeys : List.map fst
            (List.map (fun '(k, g) => (k, (mean_of formal g, mean_of literacy g,
                                           mean_of income g))) groups)
          = group_keys (List.map (fun r => education (base r)) (rows df))).
  { rewrite List.map_map. unfold groups. rewrite <- groupby_keys.
    apply List.map_ext. now intros [k g]. }
  rewrite Hkeys. split; [apply group_keys_sorted|]. split.
  - intros k. rewrite in_group_keys_iff, List.in_map_iff.
    split; intros [r Hr]; exists r; tauto.
  - rewrite List.Forall_map.
    eapply List.Forall_impl; [|apply (groupby_groups (fun r => education (base r)))].
    intros [k g] [Hne _]. simpl in *.
    destruct (mean_of_some formal g Hne) as [a ->].
    destruct (mean_of_some literacy g Hne) as [b ->].
    destruct (mean_of_some income g Hne) as [c ->].
    now exists a, b, c.
Qed.

Lemma sort_values_perm argsort (rs : list Row) :
  is_argsort (province_rates rs) (argsort (province_rates rs)) = true ->
  Permutation (sort_values argsort (province_groups rs)) (province_groups rs).
Proof.
  unfold province_rates. intros Hsort.
  destruct (province_groups_rates rs) as [rates Hrates].
  assert (Hvals : non_nan_values (List.map Some rates) = rates).
  { clear. unfold non_nan_values.
    induction rates as [|q l IH]; simpl; [reflexivity|]. f_equal. apply IH. }
  rewrite Hrates, Hvals in Hsort.
  assert (Hlen : List.length rates = List.length (province_groups rs)).
  { apply (f_equal (@List.length _)) in Hrates. now rewrite !List.length_map in Hrates. }
  unfold sort_values. rewrite Hrates, nargsort_numbers by exact Hsort.
  rewrite <- (take_idx_all (province_groups rs)) at 2.
  apply take_idx_perm. rewrite <- Hlen. now apply is_argsort_perm.
Qed.

(** X14: whenever the sort behind [sort_values] returns a sorting
    permutation, the provincial table has exactly one row for each province
    that occurs in the view and no other row. *)
Theorem provincial_one_row_per_province argsort df :
  is_argsort (province_rates (rows df)) (argsort (province_rates (rows df))) = true ->
  exists out,
    fst (show_provincial_analysis argsort df) = Ok out /\
    List.NoDup (List.map ps_province out) /\
    (forall k, In k (List.map ps_province out) <->
               exists r, In r (rows df) /\ province (base r) = k).
Proof.
  intros Hsort. eexists. split; [reflexivity|].
  pose proof (sort_values_perm argsort (rows df) Hsort) as Hperm.
  apply (Permutation_map ps_province) in Hperm.
  assert (Hkeys : List.map ps_province (province_groups (rows df))
                  = group_keys (List.map (fun r => province (base r)) (rows df))).
  { unfold province_groups. rewrite List.map_map, <- groupby_keys.
    apply List.map_ext. now intros [k g]. }
  rewrite Hkeys in Hperm. split.
  - eapply Permutation_NoDup; [symmetry; exact Hperm|].
    apply sorted_strings_NoDup, group_keys_sorted.
  - intros k. split.
    + intros Hk. eapply Permutation_in in Hk; [|exact Hperm].
      apply in_group_keys_iff, List.in_map_iff in Hk as [r Hr]. exists r. tauto.
    + intros [r Hr]. eapply Permutation_in; [symmetry; exact Hperm|].
      apply in_group_keys_iff, List.in_map_iff. exists r. tauto.
Qed.

Lemma provincial_one_row_per_province_witness :
  exists out,
    fst (show_provincial_analysis stable_argsort (frame_of sample_table)) = Ok out /\
    List.NoDup (List.map ps_province out) /\
    (forall k, In k (List.map ps_province out) <->
               exists r, In r (rows (frame_of sample_table)) /\ province (base r) = k).
Proof.
  apply (provincial_one_row_per_province stable_argsort (frame_of sample_table)).
  vm_compute. reflexivity.
Defined.

(** ** Policy insights *)

Lemma mean_of_nan_iff (f : Row -> Q) (rs : list Row) : mean_of f rs = NaN <-> rs = [].
Proof. destruct rs; simpl; split; intros H; try reflexivity; discriminate. Qed.

Lemma float_sub_nan_iff (a b : float) : float_sub a b = NaN <-> a = NaN \/ b = NaN.
Proof.
  destruct a, b; simpl; split; intros H; try reflexivity; try discriminate; auto;
    destruct H; discriminate.
Qed.

Lemma len_getitem_range (df : DataFrame) (mask : Row -> bool) :
  0 <= len (getitem df mask) <= len df.
Proof. pose proof (len_getitem_le df mask). unfold len in *. lia. Qed.

(** X15: the policy view never fails.  Its urban-rural gap is NaN exactly
    when the view has no Urban row or no Rural row; each of its three target
    populations is a count between 0 and the number of rows of the view, and
    the first one is the reported number of excluded rural residents. *)
Theorem policy_insights_values df :
  exists p,
    fst (show_policy_insights df) = Ok p /\
    (urban_rural_gap p = NaN <->
       List.filter is_urban (rows df) = [] \/ List.filter is_rural (rows df) = []) /\
    Forall (fun rec => 0 <= target rec <= len df) (recommendations p) /\
    List.map target (firstn 1 (recommendations p)) = [excluded_rural p].
Proof.
  eexists. split; [reflexivity|]. split; [|split].
  - cbn [fst urban_rural_gap snd show_policy_insights bind get ret].
    rewrite float_sub_nan_iff, !mean_of_nan_iff, !rows_getitem. reflexivity.
  - repeat constructor; apply len_getitem_range.
  - reflexivity.
Qed.

(** ** Excluded respondents in two views *)

Lemma segments_excluded_size (df : DataFrame) (q : MarketSegments) (n : Z) :
  fst (show_market_segments df) = Ok q ->
  In ("Financially Excluded", n) (segments q) ->
  n = len (getitem df is_excluded).
Proof.
  rewrite show_market_segments_summary. intros [= <-]. simpl.
  intros [H|[H|[H|[H|[]]]]]; try discriminate H. now injection H.
Qed.

(** X16: on any selection from a prepared table with 0/1 bank and
    mobile-money flags, the size of the segment Financially Excluded is the
    executive overview's excluded count plus the number of rows without bank
    account and mobile money but with savings; so the segment is never
    smaller than the excluded count. *)
Theorem excluded_segment_and_excluded_count
    demographics financial_services table provinces urbanRural p q n :
  prepare_analysis_data demographics financial_services = Ok table ->
  flags_boolean table ->
  let view := filtered_view 0%nat provinces urbanRural [frame_of table] in
  fst (show_executive_overview view) = Ok p ->
  fst (show_market_segments view) = Ok q ->
  In ("Financially Excluded", n) (segments q) ->
  n = eo_excluded_count p
      + len (getitem view (fun r => is_excluded r && (has_savings (base r) =? 1))) /\
  eo_excluded_count p <= n.
Proof.
  intros Hprep Hflags view Hp Hq Hn.
  apply (segments_excluded_size view q n Hq) in Hn. subst n.
  assert (Hcount : eo_excluded_count p
                   = len (getitem view (fun r => eqb (any_formal_service r) false))).
  { revert Hp. unfold show_executive_overview, bind, get, lift, ret.
    destruct (py_truediv _ _); simpl; [|discriminate]. now intros [= <-]. }
  assert (Hrows : forall r, In r (rows view) -> In r table).
  { intros r Hr. unfold view in Hr. rewrite filtered_view_rows in Hr.
    apply List.filter_In in Hr as [Hr _]. exact Hr. }
  assert (Hsplit :
    (List.length (List.filter (fun r => eqb (any_formal_service r) false) (rows view))
     + List.length (List.filter (fun r => is_excluded r && (has_savings (base r) =? 1)%Z)
                                (rows view)))%nat
    = List.length (List.filter is_excluded (rows view))).
  { rewrite filter_length_disjoint.
    - apply filter_length_ext_in. intros r Hr. apply Hrows in Hr.
      rewrite (prepare_rows _ _ _ Hprep r Hr).
      unfold flags_boolean in Hflags. rewrite List.Forall_forall in Hflags.
      destruct (Hflags r Hr) as [Hb Hm].
      unfold formal_flag, is_excluded, is_flag in *.
      destruct Hb as [-> | ->], Hm as [-> | ->]; simpl;
        destruct (has_savings (base r) =? 1); reflexivity.
    - intros r Hr Hany. apply Hrows in Hr.
      rewrite (prepare_rows _ _ _ Hprep r Hr) in Hany.
      unfold formal_flag in Hany.
      destruct (has_savings (base r) =? 1); [|now rewrite andb_false_r].
      rewrite orb_true_r in Hany. discriminate. }
  rewrite Hcount. unfold len. rewrite !rows_getitem. lia.
Qed.

Lemma excluded_segment_and_excluded_count_witness :
  exists p q n,
    let view := filtered_view 0%nat ["Eastern"; "Northern"] All [frame_of sample_table] in
    fst (show_executive_overview view) = Ok p /\
    fst (show_market_segments view) = Ok q /\
    In ("Financially Excluded", n) (segments q) /\
    n = eo_excluded_count p
        + len (getitem view (fun r => is_excluded r && (has_savings (base r) =? 1))) /\
    eo_excluded_count p <= n.
Proof.
  eexists. eexists. exists 3.
  split; [vm_compute; reflexivity|]. split; [vm_compute; reflexivity|].
  split; [vm_compute; tauto|].
  eapply (excluded_segment_and_excluded_count sample_demographics
            sample_financial_services sample_table ["Eastern"; "Northern"] All).
  - vm_compute. reflexivity.
  - unfold flags_boolean. vm_compute.
    repeat (apply List.Forall_cons; [split; auto|]). apply List.Forall_nil.
  - vm_compute. reflexivity.
  - vm_compute. reflexivity.
  - vm_compute. tauto.
Defined.

(** ** The default selection *)

Lemma in_unique_strings (x : string) (l : list string) :
  In x (unique_strings l) <-> In x l.
Proof.
  induction l as [|y l IH]; simpl; [tauto|].
  rewrite List.filter_In, IH, negb_true_iff.
  destruct (String.eqb_spec y x) as [->|Hne]; [tauto|].
  split; [tauto|]. intros [H|H]; [congruence|]. right. split; [exact H | reflexivity].
Qed.

(** X17: with the side bar left as it starts, all provinces of the table
    selected and the urban/rural filter on "All", the filtered view has
    every row of the table, in the table's order; with the provinces left as
    they start, choosing Urban or Rural keeps exactly the rows of that
    category. *)
Theorem default_selection_keeps_table table st :
  let df := deref st table in
  rows (filtered_view table (province_options df) All st) = rows df /\
  rows (filtered_view table (province_options df) Urban st)
    = List.filter (fun r => String.eqb (urban_rural (base r)) "Urban") (rows df) /\
  rows (filtered_view table (province_options df) Rural st)
    = List.filter (fun r => String.eqb (urban_rural (base r)) "Rural") (rows df).
Proof.
  intros df.
  assert (Hprov : forall r, In r (rows df) ->
            existsb (String.eqb (province (base r))) (province_options df) = true).
  { intros r Hr. apply List.existsb_exists. exists (province (base r)).
    split; [|apply String.eqb_refl].
    unfold province_options. apply in_unique_strings.
    now apply (List.in_map (fun r => province (base r))). }
  split; [|split]; rewrite filtered_view_rows; fold df.
  - apply filter_all. rewrite List.Forall_forall. intros r Hr.
    unfold keepsb. now rewrite (Hprov r Hr).
  - apply List.filter_ext_in. intros r Hr. unfold keepsb. now rewrite (Hprov r Hr).
  - apply List.filter_ext_in. intros r Hr. unfold keepsb. now rewrite (Hprov r Hr).
Qed.
